(** * social-events-server: events and participations

    A shallow embedding of the request handlers of
    [routes/eventsRoutes.js] (the [/events] router) and of [api/index.js]
    ([POST /join-event], [GET /joined]) over an explicit model of the two
    MongoDB collections, and the properties of the event / participation
    data model proved about them.

    Conventions.
    - A handler is a function from the database and the request to a
      response and the database after the request (state passing).
    - Every [new Date()] of a handler is an argument (the clock reading);
      instants are milliseconds since the epoch, in [Z].
    - The identifier the driver generates for [insertOne] is an argument
      too; an identifier already used in the collection makes the insert
      throw (duplicate key), which the handler's [catch] answers with 500.
    - Body and query fields are JSON strings or absent ([option string]),
      the types the data model gives them.
    - [GET /seed-demo-events] and the start-up ([init] and the exported
      handler) are modelled apart from the requests of the event and
      participation services; [GET /] and [GET /test-db], which read or
      write no document, are left out. *)

From Stdlib Require Import String Ascii ZArith NArith List Bool Lia.
From Stdlib Require Import Sorted Permutation.
From Stdlib.Strings Require Byte.
Import ListNotations.

Local Open Scope string_scope.
Local Open Scope Z_scope.

(* ================================================================= *)
(** ** JavaScript values of a request *)

(** A field of [req.body] or [req.query]: a string, or [None] when the key
    is absent ([undefined]). Every handler tests a field with [!x] before
    any other use of it, so [None] stands for [null] as well. *)
Definition field := option string.

(** JavaScript truthiness of such a field: [!x] is [negb (truthy x)]. *)
Definition truthy (x : field) : bool :=
  match x with
  | Some s => negb (s =? "")%string
  | None => false
  end.

(* ================================================================= *)
(** ** BSON object identifiers *)

(** An [ObjectId] is twelve bytes: a four-byte timestamp, five random
    bytes and a three-byte counter. *)
Definition ObjectId : Type :=
  (Byte.byte * Byte.byte * Byte.byte * Byte.byte) *
  (Byte.byte * Byte.byte * Byte.byte * Byte.byte * Byte.byte) *
  (Byte.byte * Byte.byte * Byte.byte).

Definition ObjectId_bytes (o : ObjectId) : list Byte.byte :=
  let '((a, b, c, d), (e, f, g, h, i), (j, k, l)) := o in
  [a; b; c; d; e; f; g; h; i; j; k; l].

Definition ObjectId_of_bytes (bs : list Byte.byte) : option ObjectId :=
  match bs with
  | [a; b; c; d; e; f; g; h; i; j; k; l] =>
      Some ((a, b, c, d), (e, f, g, h, i), (j, k, l))
  | _ => None
  end.

Definition ObjectId_eq_dec (x y : ObjectId) : {x = y} + {x <> y}.
Proof.
  repeat (decide equality; try apply Byte.byte_eq_dec).
Defined.

(** [a.equals(b)]: the comparison a filter on [_id] or [eventId] makes. *)
Definition ObjectId_eqb (x y : ObjectId) : bool :=
  if ObjectId_eq_dec x y then true else false.

(** *** Hexadecimal form *)

Definition hexDigit (n : N) : ascii :=
  match n with
  | 0%N => "0" | 1%N => "1" | 2%N => "2" | 3%N => "3"
  | 4%N => "4" | 5%N => "5" | 6%N => "6" | 7%N => "7"
  | 8%N => "8" | 9%N => "9" | 10%N => "a" | 11%N => "b"
  | 12%N => "c" | 13%N => "d" | 14%N => "e" | _ => "f"
  end%char.

Definition hexValue (c : ascii) : option N :=
  let n := N_of_ascii c in
  if ((48 <=? n) && (n <=? 57))%N then Some (n - 48)%N
  else if ((97 <=? n) && (n <=? 102))%N then Some (n - 87)%N
  else if ((65 <=? n) && (n <=? 70))%N then Some (n - 55)%N
  else None.

Definition byteHex (b : Byte.byte) : string :=
  let n := Byte.to_N b in
  String (hexDigit (n / 16)) (String (hexDigit (n mod 16)) EmptyString).

(** [o.toHexString()], the form in which an identifier is put in a JSON
    response: twenty-four lower-case hexadecimal digits. *)
Definition toHexString (o : ObjectId) : string :=
  String.concat "" (map byteHex (ObjectId_bytes o)).

(** Reads a string of hexadecimal digit pairs as bytes. *)
Fixpoint bytesOfHex (s : string) : option (list Byte.byte) :=
  match s with
  | EmptyString => Some []
  | String c1 (String c2 rest) =>
      match hexValue c1, hexValue c2, bytesOfHex rest with
      | Some h, Some l, Some bs =>
          match Byte.of_N (16 * h + l) with
          | Some b => Some (b :: bs)
          | None => None
          end
      | _, _, _ => None
      end
  | String _ EmptyString => None
  end.

(** The identifier a string of twenty-four hexadecimal digits denotes. *)
Definition ObjectId_of_hex (s : string) : option ObjectId :=
  match bytesOfHex s with
  | Some bs => ObjectId_of_bytes bs
  | None => None
  end.

(* ================================================================= *)
(** ** What the platform provides *)

(** [ObjectId.isValid] and [new ObjectId(s)] on strings belong to the
    MongoDB driver; the handlers use nothing of them but what follows.
    The empty string is no identifier, and the hexadecimal form of an
    identifier is accepted and read back as that identifier. *)
Class ObjectIdCodec := {
  isValid : string -> bool;
  ObjectId_new : string -> ObjectId;
  isValid_empty : isValid "" = false;
  isValid_toHexString : forall o, isValid (toHexString o) = true;
  ObjectId_new_toHexString : forall o, ObjectId_new (toHexString o) = o
}.

(** [new Date(s).getTime()] for a string [s]: the instant it denotes, or
    [None] when the outcome is an invalid date ([NaN]). Which strings
    beyond the ISO format are accepted is up to the JavaScript engine. *)
Class DateParser := {
  Date_parse : string -> option Z
}.

(* ================================================================= *)
(** ** Documents *)

(** A document of the [events] collection. *)
Module Event.
Record t := mk {
  _id : ObjectId;
  title : string;
  description : string;
  eventType : string;
  thumbnail : string;
  location : string;
  eventDate : Z;
  creatorEmail : string;
  createdAt : Z
}.

Definition eq_dec (x y : t) : {x = y} + {x <> y}.
Proof.
  decide equality;
    try apply Z.eq_dec; try apply string_dec; apply ObjectId_eq_dec.
Defined.
End Event.

(** A document of the [joinedEvents] collection. *)
Module Joined.
Record t := mk {
  _id : ObjectId;
  eventId : ObjectId;
  userEmail : string;
  joinedAt : Z;
  eventTitle : string;
  eventType : string;
  thumbnail : string;
  location : string;
  eventDate : Z;
  creatorEmail : string
}.
End Joined.

(** The database [social_events]: its two collections, each in insertion
    order. *)
Record DB := mkDB {
  eventsCollection : list Event.t;
  joinedCollection : list Joined.t
}.

Definition emptyDB : DB := mkDB [] [].

(* ================================================================= *)
(** ** Collection operations *)

Section Collection.
Context {A : Type}.

(** [c.findOne(q)]: the first document the filter accepts. *)
Definition findOne (q : A -> bool) (c : list A) : option A := find q c.

(** [c.insertOne(doc)], [doc] carrying the generated [_id]: [None] is
    the duplicate-key error. *)
Definition insertOne (idOf : A -> ObjectId) (doc : A) (c : list A)
  : option (list A) :=
  if existsb (fun d => ObjectId_eqb (idOf d) (idOf doc)) c then None
  else Some (c ++ [doc])%list.

(** [c.updateOne(q, {$set: ...})]: the first document the filter accepts
    is replaced by [set] of it; the others are left as they are. *)
Fixpoint updateOne (q : A -> bool) (set : A -> A) (c : list A) : list A :=
  match c with
  | [] => []
  | d :: c' => if q d then set d :: c' else d :: updateOne q set c'
  end.

(** [.sort({k: 1})] on an instant-valued key: ascending, documents of
    equal key in the order they come. *)
Fixpoint insertSorted (key : A -> Z) (x : A) (l : list A) : list A :=
  match l with
  | [] => [x]
  | y :: l' =>
      if key x <=? key y then x :: l else y :: insertSorted key x l'
  end.

Definition sortBy (key : A -> Z) (l : list A) : list A :=
  fold_right (insertSorted key) [] l.

(** Ascending order of the key. *)
Definition ascending (key : A -> Z) : list A -> Prop :=
  Sorted (fun a b => key a <= key b).

(** [c.find(q).sort({k: 1}).toArray()]. *)
Definition findSorted (q : A -> bool) (key : A -> Z) (c : list A) : list A :=
  sortBy key (filter q c).
End Collection.

(* ================================================================= *)
(** ** Requests and responses *)

(** Body of [POST /events]. *)
Module CreateBody.
Record t := mk {
  title : field;
  description : field;
  eventType : field;
  thumbnail : field;
  location : field;
  eventDate : field;
  creatorEmail : field
}.
End CreateBody.

(** Body of [PUT /events/:id]. *)
Module UpdateBody.
Record t := mk {
  title : field;
  description : field;
  eventType : field;
  thumbnail : field;
  location : field;
  eventDate : field;
  requestorEmail : field
}.
End UpdateBody.

(** Body of [POST /join-event]. *)
Module JoinBody.
Record t := mk {
  eventId : field;
  userEmail : field
}.
End JoinBody.

(** The JSON a handler answers with. *)
Inductive Body :=
| Failed (message : string)
    (* { ok: false, message } *)
| EventCreated (message : string) (eventId : ObjectId)
    (* { ok: true, message, eventId } *)
| EventList (count : nat) (events : list Event.t)
    (* { ok: true, count, events } *)
| EventDetails (event : Event.t)
    (* { ok: true, event } *)
| EventUpdated (message : string) (modifiedCount : nat)
    (* { ok: true, message, modifiedCount } *)
| EventJoined (message : string) (joinId : ObjectId)
    (* { ok: true, message, joinId } *)
| JoinedList (count : nat) (joinedEvents : list Joined.t).
    (* { ok: true, count, joinedEvents } *)

Record Response := mkResponse {
  status : Z;
  body : Body
}.

(** [res.status(code).json({ ok: false, message })]. *)
Definition fail (code : Z) (message : string) : Response :=
  mkResponse code (Failed message).

(** [res.json(b)]: status 200. *)
Definition json (b : Body) : Response := mkResponse 200 b.

(** The string a truthy field holds. *)
Definition text (x : field) : string :=
  match x with
  | Some s => s
  | None => ""
  end.

(* ================================================================= *)
(** ** The handlers *)

Section Handlers.
Context {codec : ObjectIdCodec} {dates : DateParser}.

(** The filter [{ _id: new ObjectId(id) }]. *)
Definition byId (o : ObjectId) (e : Event.t) : bool :=
  ObjectId_eqb (Event._id e) o.

(** *** routes/eventsRoutes.js *)

(** [POST /events]. [now] is the clock reading the date is compared
    with, [now'] the later one that becomes [createdAt]. *)
Definition post_events (db : DB) (b : CreateBody.t) (now now' : Z)
    (newId : ObjectId) : Response * DB :=
  if negb (truthy (CreateBody.title b))
     || negb (truthy (CreateBody.description b))
     || negb (truthy (CreateBody.eventType b))
     || negb (truthy (CreateBody.thumbnail b))
     || negb (truthy (CreateBody.location b))
     || negb (truthy (CreateBody.eventDate b))
     || negb (truthy (CreateBody.creatorEmail b))
  then (fail 400 "All fields are required.", db)
  else
    match Date_parse (text (CreateBody.eventDate b)) with
    | None => (fail 400 "Invalid event date.", db)
    | Some eventDateObj =>
        if eventDateObj <=? now
        then (fail 400 "Event date must be a future date.", db)
        else
          let doc :=
            {| Event._id := newId;
               Event.title := text (CreateBody.title b);
               Event.description := text (CreateBody.description b);
               Event.eventType := text (CreateBody.eventType b);
               Event.thumbnail := text (CreateBody.thumbnail b);
               Event.location := text (CreateBody.location b);
               Event.eventDate := eventDateObj;
               Event.creatorEmail := text (CreateBody.creatorEmail b);
               Event.createdAt := now' |} in
          match insertOne Event._id doc (eventsCollection db) with
          | Some events' =>
              (mkResponse 201
                 (EventCreated "Event created successfully!" newId),
               mkDB events' (joinedCollection db))
          | None => (fail 500 "Failed to create event", db)
          end
    end.

(** [GET /events]. *)
Definition get_events (db : DB) : Response :=
  let events :=
    findSorted (fun _ => true) Event.eventDate (eventsCollection db) in
  json (EventList (length events) events).

(** [GET /events/upcoming]: the filter is [{ eventDate: { $gt: now } }]. *)
Definition get_events_upcoming (db : DB) (now : Z) : Response :=
  let events :=
    findSorted (fun e => now <? Event.eventDate e) Event.eventDate
      (eventsCollection db) in
  json (EventList (length events) events).

(** [GET /events/user?email=...]. *)
Definition get_events_user (db : DB) (email : field) : Response :=
  if negb (truthy email) then fail 400 "User email is required."
  else
    let events :=
      findSorted (fun e => (Event.creatorEmail e =? text email)%string)
        Event.eventDate (eventsCollection db) in
    json (EventList (length events) events).

(** [GET /events/:id]. *)
Definition get_events_id (db : DB) (id : string) : Response :=
  if negb (isValid id) then fail 400 "Invalid event id."
  else
    match findOne (byId (ObjectId_new id)) (eventsCollection db) with
    | None => fail 404 "Event not found."
    | Some event => json (EventDetails event)
    end.

(** The [$set] of [PUT /events/:id]. *)
Definition setEvent (title description eventType thumbnail location : string)
    (eventDate : Z) (e : Event.t) : Event.t :=
  {| Event._id := Event._id e;
     Event.title := title;
     Event.description := description;
     Event.eventType := eventType;
     Event.thumbnail := thumbnail;
     Event.location := location;
     Event.eventDate := eventDate;
     Event.creatorEmail := Event.creatorEmail e;
     Event.createdAt := Event.createdAt e |}.

(** [PUT /events/:id]. [modifiedCount] is 0 when the [$set] leaves the
    document as it was. *)
Definition put_events_id (db : DB) (id : string) (b : UpdateBody.t)
    (now : Z) : Response * DB :=
  if negb (isValid id) then (fail 400 "Invalid event id.", db)
  else if negb (truthy (UpdateBody.requestorEmail b))
  then (fail 400 "requestorEmail is required.", db)
  else
    match findOne (byId (ObjectId_new id)) (eventsCollection db) with
    | None => (fail 404 "Event not found.", db)
    | Some existing =>
        if negb (Event.creatorEmail existing
                 =? text (UpdateBody.requestorEmail b))%string
        then (fail 403 "You are not allowed to update this event.", db)
        else if negb (truthy (UpdateBody.title b))
                || negb (truthy (UpdateBody.description b))
                || negb (truthy (UpdateBody.eventType b))
                || negb (truthy (UpdateBody.thumbnail b))
                || negb (truthy (UpdateBody.location b))
                || negb (truthy (UpdateBody.eventDate b))
        then (fail 400 "All fields are required.", db)
        else
          match Date_parse (text (UpdateBody.eventDate b)) with
          | None => (fail 400 "Invalid event date.", db)
          | Some eventDateObj =>
              if eventDateObj <=? now
              then (fail 400 "Event date must be a future date.", db)
              else
                let set :=
                  setEvent (text (UpdateBody.title b))
                    (text (UpdateBody.description b))
                    (text (UpdateBody.eventType b))
                    (text (UpdateBody.thumbnail b))
                    (text (UpdateBody.location b))
                    eventDateObj in
                let modifiedCount :=
                  if Event.eq_dec (set existing) existing then 0%nat
                  else 1%nat in
                (json (EventUpdated "Event updated successfully."
                         modifiedCount),
                 mkDB (updateOne (byId (ObjectId_new id)) set
                         (eventsCollection db))
                      (joinedCollection db))
          end
    end.

(** *** api/index.js *)

(** The filter [{ eventId: event._id, userEmail }]. *)
Definition byPair (o : ObjectId) (userEmail : string) (j : Joined.t)
  : bool :=
  ObjectId_eqb (Joined.eventId j) o
  && (Joined.userEmail j =? userEmail)%string.

(** [POST /join-event]. *)
Definition post_join_event (db : DB) (b : JoinBody.t) (now : Z)
    (newId : ObjectId) : Response * DB :=
  if negb (truthy (JoinBody.eventId b))
     || negb (truthy (JoinBody.userEmail b))
  then (fail 400 "eventId and userEmail are required.", db)
  else if negb (isValid (text (JoinBody.eventId b)))
  then (fail 400 "Invalid eventId.", db)
  else
    match findOne (byId (ObjectId_new (text (JoinBody.eventId b))))
            (eventsCollection db) with
    | None => (fail 404 "Event not found.", db)
    | Some event =>
        let userEmail := text (JoinBody.userEmail b) in
        match findOne (byPair (Event._id event) userEmail)
                (joinedCollection db) with
        | Some existing =>
            (fail 400 "You have already joined this event.", db)
        | None =>
            let joinDoc :=
              {| Joined._id := newId;
                 Joined.eventId := Event._id event;
                 Joined.userEmail := userEmail;
                 Joined.joinedAt := now;
                 Joined.eventTitle := Event.title event;
                 Joined.eventType := Event.eventType event;
                 Joined.thumbnail := Event.thumbnail event;
                 Joined.location := Event.location event;
                 Joined.eventDate := Event.eventDate event;
                 Joined.creatorEmail := Event.creatorEmail event |} in
            match insertOne Joined._id joinDoc (joinedCollection db) with
            | Some joined' =>
                (mkResponse 201
                   (EventJoined "You have successfully joined this event."
                      newId),
                 mkDB (eventsCollection db) joined')
            | None => (fail 500 "Failed to join event.", db)
            end
        end
    end.

(** [GET /joined?email=...]. *)
Definition get_joined (db : DB) (email : field) : Response :=
  if negb (truthy email) then fail 400 "User email is required."
  else
    let joinedEvents :=
      findSorted (fun j => (Joined.userEmail j =? text email)%string)
        Joined.eventDate (joinedCollection db) in
    json (JoinedList (length joinedEvents) joinedEvents).

End Handlers.

(* ================================================================= *)
(** ** Reading a response *)

(** The error kinds of the specification. The handlers have no error type:
    a failure is a status code and a message. Validation and conflict
    failures share status 400 and differ by message. *)
Inductive ErrorKind :=
| ValidationError
| NotFoundError
| AuthorizationError
| ConflictError
| UnclassifiedFailure.

Definition errorKind (r : Response) : option ErrorKind :=
  match body r with
  | Failed message =>
      if status r =? 404 then Some NotFoundError
      else if status r =? 403 then Some AuthorizationError
      else if status r =? 400 then
        if (message =? "You have already joined this event.")%string
        then Some ConflictError
        else Some ValidationError
      else Some UnclassifiedFailure
  | _ => None
  end.

(** A response that is no failure. *)
Definition succeeded (r : Response) : bool :=
  match body r with
  | Failed _ => false
  | _ => true
  end.

Definition eventsOf (r : Response) : list Event.t :=
  match body r with
  | EventList _ events => events
  | _ => []
  end.

Definition joinedEventsOf (r : Response) : list Joined.t :=
  match body r with
  | JoinedList _ joinedEvents => joinedEvents
  | _ => []
  end.

(* ================================================================= *)
(** ** Sequences of requests *)

(** One handled request, with what the environment supplied to it: the
    clock readings and the generated identifier. *)
Inductive Call :=
| PostEvents (b : CreateBody.t) (now now' : Z) (newId : ObjectId)
| GetEvents
| GetEventsUpcoming (now : Z)
| GetEventsUser (email : field)
| GetEventsId (id : string)
| PutEventsId (id : string) (b : UpdateBody.t) (now : Z)
| PostJoinEvent (b : JoinBody.t) (now : Z) (newId : ObjectId)
| GetJoined (email : field).

Section Server.
Context {codec : ObjectIdCodec} {dates : DateParser}.

Definition handle (db : DB) (c : Call) : Response * DB :=
  match c with
  | PostEvents b now now' newId => post_events db b now now' newId
  | GetEvents => (get_events db, db)
  | GetEventsUpcoming now => (get_events_upcoming db now, db)
  | GetEventsUser email => (get_events_user db email, db)
  | GetEventsId id => (get_events_id db id, db)
  | PutEventsId id b now => put_events_id db id b now
  | PostJoinEvent b now newId => post_join_event db b now newId
  | GetJoined email => (get_joined db email, db)
  end.

(** The database after a sequence of requests handled one after the
    other. *)
Definition run (db : DB) (cs : list Call) : DB :=
  fold_left (fun d c => snd (handle d c)) cs db.

(** The states the server takes a fresh database to. *)
Definition reachable (db : DB) : Prop :=
  exists cs, run emptyDB cs = db.

(** *** The participation invariant *)

(** The participations of a user in an event. *)
Definition participations (db : DB) (o : ObjectId) (userEmail : string)
  : list Joined.t :=
  filter (byPair o userEmail) (joinedCollection db).

Definition atMostOnePerPair (db : DB) : Prop :=
  forall o userEmail, (length (participations db o userEmail) <= 1)%nat.

(** The participations of a list that are for a given event. *)
Definition forEvent (o : ObjectId) (l : list Joined.t) : list Joined.t :=
  filter (fun j => ObjectId_eqb (Joined.eventId j) o) l.

(** The database with the date of every event replaced. *)
Definition redate (f : Event.t -> Z) (db : DB) : DB :=
  mkDB
    (map (fun e =>
            Event.mk (Event._id e) (Event.title e) (Event.description e)
              (Event.eventType e) (Event.thumbnail e) (Event.location e)
              (f e) (Event.creatorEmail e) (Event.createdAt e))
       (eventsCollection db))
    (joinedCollection db).

(** *** The checks of [PUT /events/:id], one by one *)

Inductive UpdateCheck :=
| IdWellFormed
| RequestorPresent
| EventExists
| RequestorIsCreator
| FieldsPresent
| DateParses
| DateInFuture.

(** The order in which the handler makes them. *)
Definition updateChecks : list UpdateCheck :=
  [IdWellFormed; RequestorPresent; EventExists; RequestorIsCreator;
   FieldsPresent; DateParses; DateInFuture].

(** Whether a request passes a check, each check taken alone. *)
Definition passes (db : DB) (id : string) (b : UpdateBody.t) (now : Z)
    (c : UpdateCheck) : bool :=
  match c with
  | IdWellFormed => isValid id
  | RequestorPresent => truthy (UpdateBody.requestorEmail b)
  | EventExists =>
      match findOne (byId (ObjectId_new id)) (eventsCollection db) with
      | Some _ => true
      | None => false
      end
  | RequestorIsCreator =>
      match findOne (byId (ObjectId_new id)) (eventsCollection db) with
      | Some existing =>
          (Event.creatorEmail existing
           =? text (UpdateBody.requestorEmail b))%string
      | None => false
      end
  | FieldsPresent =>
      truthy (UpdateBody.title b) && truthy (UpdateBody.description b)
      && truthy (UpdateBody.eventType b) && truthy (UpdateBody.thumbnail b)
      && truthy (UpdateBody.location b) && truthy (UpdateBody.eventDate b)
  | DateParses =>
      match Date_parse (text (UpdateBody.eventDate b)) with
      | Some _ => true
      | None => false
      end
  | DateInFuture =>
      match Date_parse (text (UpdateBody.eventDate b)) with
      | Some d => now <? d
      | None => false
      end
  end.

(** The failure a check answers with. *)
Definition refusal (c : UpdateCheck) : Response :=
  match c with
  | IdWellFormed => fail 400 "Invalid event id."
  | RequestorPresent => fail 400 "requestorEmail is required."
  | EventExists => fail 404 "Event not found."
  | RequestorIsCreator =>
      fail 403 "You are not allowed to update this event."
  | FieldsPresent => fail 400 "All fields are required."
  | DateParses => fail 400 "Invalid event date."
  | DateInFuture => fail 400 "Event date must be a future date."
  end.

(** The kind of that failure. *)
Definition refusalKind (c : UpdateCheck) : ErrorKind :=
  match c with
  | EventExists => NotFoundError
  | RequestorIsCreator => AuthorizationError
  | _ => ValidationError
  end.

(** The first check of the list a request does not pass. *)
Definition firstFailing (db : DB) (id : string) (b : UpdateBody.t)
    (now : Z) : option UpdateCheck :=
  find (fun c => negb (passes db id b now c)) updateChecks.

(** *** Inputs of [POST /events] *)

(** A field that is missing or empty. *)
Definition missing (x : field) : Prop := x = None \/ x = Some "".

(** What makes [POST /events] refuse a body: a required field missing or
    empty, a date that does not parse, or a date not after [now]. *)
Definition createInvalid (b : CreateBody.t) (now : Z) : Prop :=
  missing (CreateBody.title b) \/ missing (CreateBody.description b)
  \/ missing (CreateBody.eventType b) \/ missing (CreateBody.thumbnail b)
  \/ missing (CreateBody.location b) \/ missing (CreateBody.eventDate b)
  \/ missing (CreateBody.creatorEmail b)
  \/ Date_parse (text (CreateBody.eventDate b)) = None
  \/ exists d, Date_parse (text (CreateBody.eventDate b)) = Some d
               /\ d <= now.
End Server.

(* ================================================================= *)
(** ** Consistency of the database *)

(** The identifiers of each collection are pairwise distinct. *)
Definition uniqueIds (db : DB) : Prop :=
  NoDup (map Event._id (eventsCollection db))
  /\ NoDup (map Joined._id (joinedCollection db)).

(** Every participation refers to a stored event. *)
Definition joinsReferToEvents (db : DB) : Prop :=
  forall j, In j (joinedCollection db) ->
    exists e, In e (eventsCollection db) /\ Event._id e = Joined.eventId j.

(** The creator a participation records is the creator of its event. *)
Definition snapshotsNameCreator (db : DB) : Prop :=
  forall j e,
    In j (joinedCollection db) -> In e (eventsCollection db) ->
    Event._id e = Joined.eventId j ->
    Joined.creatorEmail j = Event.creatorEmail e.

Definition consistent (db : DB) : Prop :=
  uniqueIds db /\ joinsReferToEvents db /\ snapshotsNameCreator db.

(** [e'] is the event [e], possibly updated: the fields no handler
    writes after the insertion are the same. *)
Definition sameIdentity (e e' : Event.t) : Prop :=
  Event._id e' = Event._id e
  /\ Event.creatorEmail e' = Event.creatorEmail e
  /\ Event.createdAt e' = Event.createdAt e.

(** [db'] holds what [db] holds and possibly more: the participations of
    [db] as they were, in place, followed by new ones; the events of [db],
    in place and possibly updated, followed by new ones. *)
Definition extends (db db' : DB) : Prop :=
  (exists added,
      joinedCollection db' = (joinedCollection db ++ added)%list)
  /\ (exists kept added,
         eventsCollection db' = (kept ++ added)%list
         /\ Forall2 sameIdentity (eventsCollection db) kept).

(** The text fields of an event are non-empty. *)
Definition filledEvent (e : Event.t) : Prop :=
  Event.title e <> "" /\ Event.description e <> ""
  /\ Event.eventType e <> "" /\ Event.thumbnail e <> ""
  /\ Event.location e <> "" /\ Event.creatorEmail e <> "".

(** The user and the snapshot of a participation are non-empty. *)
Definition filledJoined (j : Joined.t) : Prop :=
  Joined.userEmail j <> "" /\ Joined.eventTitle j <> ""
  /\ Joined.eventType j <> "" /\ Joined.thumbnail j <> ""
  /\ Joined.location j <> "" /\ Joined.creatorEmail j <> "".

Definition filled (db : DB) : Prop :=
  Forall filledEvent (eventsCollection db)
  /\ Forall filledJoined (joinedCollection db).

(* ================================================================= *)
(** ** Seeding and start-up (api/index.js) *)

(** [date.setDate(date.getDate() + d)] on a copy of the instant: the same
    local time of day [d] days later, in the time zone of the server. *)
Class LocalCalendar := {
  addDays : Z -> Z -> Z
}.

(** [c.insertMany(docs)], the documents carrying their generated [_id]s:
    they are inserted in order up to the first duplicate key, which makes
    the call throw ([false]) with the earlier ones left inserted. *)
Fixpoint insertMany {A : Type} (idOf : A -> ObjectId) (docs : list A)
    (c : list A) : list A * bool :=
  match docs with
  | [] => (c, true)
  | doc :: docs' =>
      match insertOne idOf doc c with
      | Some c' => insertMany idOf docs' c'
      | None => (c, false)
      end
  end.

(** The documents of [GET /seed-demo-events], with the identifiers the
    driver generates for them. *)
Definition demoEvents {calendar : LocalCalendar} (now : Z)
    (id1 id2 id3 id4 id5 : ObjectId) : list Event.t :=
  [ {| Event._id := id1;
       Event.title := "City Park Cleanup Drive";
       Event.description :=
         "Join us to clean up the city park and make it a cleaner space for everyone.";
       Event.eventType := "Cleanup";
       Event.thumbnail := "https://placehold.co/600x400?text=Park+Cleanup";
       Event.location := "City Park, Main Gate";
       Event.eventDate := addDays now 3;
       Event.creatorEmail := "demo1@example.com";
       Event.createdAt := now |};
    {| Event._id := id2;
       Event.title := "Tree Plantation Day";
       Event.description :=
         "Plant trees in the community area and help us make the city greener.";
       Event.eventType := "Plantation";
       Event.thumbnail := "https://placehold.co/600x400?text=Tree+Plantation";
       Event.location := "Community Ground, Sector 5";
       Event.eventDate := addDays now 7;
       Event.creatorEmail := "demo2@example.com";
       Event.createdAt := now |};
    {| Event._id := id3;
       Event.title := "Food Donation for Street Children";
       Event.description :=
         "Distribute food packs and clothes to underprivileged children.";
       Event.eventType := "Donation";
       Event.thumbnail := "https://placehold.co/600x400?text=Food+Donation";
       Event.location := "Central Bus Stand Area";
       Event.eventDate := addDays now 10;
       Event.creatorEmail := "demo3@example.com";
       Event.createdAt := now |};
    {| Event._id := id4;
       Event.title := "Road Safety Awareness Campaign";
       Event.description :=
         "Raise awareness about road safety rules among drivers and pedestrians.";
       Event.eventType := "Awareness";
       Event.thumbnail := "https://placehold.co/600x400?text=Road+Safety";
       Event.location := "City Square, Near Traffic Signal";
       Event.eventDate := addDays now 5;
       Event.creatorEmail := "demo4@example.com";
       Event.createdAt := now |};
    {| Event._id := id5;
       Event.title := "Free Health Checkup Camp";
       Event.description :=
         "Free basic health checkup and consultation for low-income families.";
       Event.eventType := "Health Camp";
       Event.thumbnail := "https://placehold.co/600x400?text=Health+Camp";
       Event.location := "Community Clinic, Block C";
       Event.eventDate := addDays now 14;
       Event.creatorEmail := "demo5@example.com";
       Event.createdAt := now |} ].

(** What [GET /seed-demo-events] answers with. *)
Inductive SeedBody :=
| SeedInserted (message : string) (insertedCount : nat)
    (* { ok: true, message, insertedCount } *)
| SeedFailed (message : string).
    (* { ok: false, message, error } *)

(** [GET /seed-demo-events]. *)
Definition get_seed_demo_events {calendar : LocalCalendar} (db : DB)
    (now : Z) (id1 id2 id3 id4 id5 : ObjectId) : (Z * SeedBody) * DB :=
  let demo := demoEvents now id1 id2 id3 id4 id5 in
  match insertMany Event._id demo (eventsCollection db) with
  | (events', true) =>
      ((200, SeedInserted "Demo events inserted successfully." (length demo)),
       mkDB events' (joinedCollection db))
  | (events', false) =>
      ((500, SeedFailed "Failed to seed demo events"),
       mkDB events' (joinedCollection db))
  end.

(** The state of the module: the flag [initialized] and the routes
    registered on [app], in order of registration. *)
Record App := mkApp {
  initialized : bool;
  routes : list (string * string)
}.

Definition freshApp : App := mkApp false [].

(** The routes [init] registers, with [app.use] written as a method. *)
Definition registered : list (string * string) :=
  [("GET", "/"); ("GET", "/test-db"); ("GET", "/seed-demo-events");
   ("USE", "/events"); ("POST", "/join-event"); ("GET", "/joined")].

(** [init()]; [connects] tells whether [client.connect()] resolves when it
    is called. [None] is the exception of a failed connection. *)
Definition init (app : App) (connects : bool) : option App :=
  if initialized app then Some app
  else if connects then Some (mkApp true (routes app ++ registered)%list)
  else None.

(** The exported handler: [true] when the request reaches [app], [false]
    when it is answered 500 "Server initialization failed.". *)
Definition serve (app : App) (connects : bool) : bool * App :=
  match init app connects with
  | Some app' => (true, app')
  | None => (false, app)
  end.

(** The module after a sequence of requests. *)
Definition served (app : App) (connections : list bool) : App :=
  fold_left (fun a c => snd (serve a c)) connections app.

(* ================================================================= *)
(** ** A sample platform *)

(** A codec that takes the strings of twenty-four hexadecimal digits and
    no others as identifiers. *)
Definition hexIsValid (s : string) : bool :=
  match ObjectId_of_hex s with
  | Some _ => true
  | None => false
  end.

Definition zeroByte : Byte.byte := Byte.x00.

Definition zeroId : ObjectId :=
  ((zeroByte, zeroByte, zeroByte, zeroByte),
   (zeroByte, zeroByte, zeroByte, zeroByte, zeroByte),
   (zeroByte, zeroByte, zeroByte)).

Definition hexNew (s : string) : ObjectId :=
  match ObjectId_of_hex s with
  | Some o => o
  | None => zeroId
  end.

(** A date parser that takes the date-only ISO form [YYYY-MM-DD] (midnight
    UTC of that day) and nothing else. *)
Definition digitValue (c : ascii) : option Z :=
  let n := Z.of_N (N_of_ascii c) in
  if (48 <=? n) && (n <=? 57) then Some (n - 48) else None.

Fixpoint digitsValue (acc : Z) (cs : list ascii) : option Z :=
  match cs with
  | [] => Some acc
  | c :: cs' =>
      match digitValue c with
      | Some d => digitsValue (10 * acc + d) cs'
      | None => None
      end
  end.

Definition isLeapYear (y : Z) : bool :=
  ((y mod 4 =? 0) && negb (y mod 100 =? 0)) || (y mod 400 =? 0).

Definition daysInMonth (y m : Z) : Z :=
  if m =? 2 then (if isLeapYear y then 29 else 28)
  else if (m =? 4) || (m =? 6) || (m =? 9) || (m =? 11) then 30
  else 31.

(** Days from 1970-01-01 to the given day of the proleptic Gregorian
    calendar. *)
Definition daysFromCivil (y m d : Z) : Z :=
  let y' := if m <=? 2 then y - 1 else y in
  let era := y' / 400 in
  let yoe := y' - era * 400 in
  let mp := (m + 9) mod 12 in
  let doy := (153 * mp + 2) / 5 + d - 1 in
  let doe := yoe * 365 + yoe / 4 - yoe / 100 + doy in
  era * 146097 + doe - 719468.

Definition isoDateParse (s : string) : option Z :=
  match list_ascii_of_string s with
  | [y1; y2; y3; y4; "-"; m1; m2; "-"; d1; d2]%char =>
      match digitsValue 0 [y1; y2; y3; y4],
            digitsValue 0 [m1; m2], digitsValue 0 [d1; d2] with
      | Some y, Some m, Some d =>
          if (1 <=? m) && (m <=? 12) && (1 <=? d) && (d <=? daysInMonth y m)
          then Some (daysFromCivil y m d * 86400000)
          else None
      | _, _, _ => None
      end
  | _ => None
  end.

(** A server whose local time is UTC: a day is 86400000 ms. *)
#[export] Instance utcCalendar : LocalCalendar := {|
  addDays := fun now d => now + d * 86400000
|}.

(** *** Sample data *)

(** 2025-11-03T00:00:00Z. *)
Definition sampleNow : Z := 1762128000000.

Definition sampleId : ObjectId := hexNew "507f1f77bcf86cd799439011".
Definition otherId : ObjectId := hexNew "507f1f77bcf86cd799439012".

(** An event on 2030-01-01, created by [a@x.com]. *)
Definition cleanup : Event.t :=
  {| Event._id := sampleId;
     Event.title := "Cleanup";
     Event.description := "Clean up the city park";
     Event.eventType := "Cleanup";
     Event.thumbnail := "https://placehold.co/600x400";
     Event.location := "City Park";
     Event.eventDate := 1893456000000;
     Event.creatorEmail := "a@x.com";
     Event.createdAt := 1762041600000 |}.

(** An event that took place on 2020-01-01. *)
Definition pastCleanup : Event.t :=
  {| Event._id := sampleId;
     Event.title := "Cleanup";
     Event.description := "Clean up the city park";
     Event.eventType := "Cleanup";
     Event.thumbnail := "https://placehold.co/600x400";
     Event.location := "City Park";
     Event.eventDate := 1577836800000;
     Event.creatorEmail := "a@x.com";
     Event.createdAt := 1575158400000 |}.

Definition sampleDB : DB := mkDB [cleanup] [].

Definition sampleCreate : CreateBody.t :=
  {| CreateBody.title := Some "Cleanup";
     CreateBody.description := Some "Clean up the city park";
     CreateBody.eventType := Some "Cleanup";
     CreateBody.thumbnail := Some "https://placehold.co/600x400";
     CreateBody.location := Some "City Park";
     CreateBody.eventDate := Some "2030-01-01";
     CreateBody.creatorEmail := Some "a@x.com" |}.

(** An update with every field valid, sent by [requestorEmail]. *)
Definition sampleUpdate (requestorEmail : field) : UpdateBody.t :=
  {| UpdateBody.title := Some "Tree plantation";
     UpdateBody.description := Some "Plant trees in the community area";
     UpdateBody.eventType := Some "Plantation";
     UpdateBody.thumbnail := Some "https://placehold.co/600x400";
     UpdateBody.location := Some "Community Ground";
     UpdateBody.eventDate := Some "2030-06-01";
     UpdateBody.requestorEmail := requestorEmail |}.

Definition sampleJoin : JoinBody.t :=
  {| JoinBody.eventId := Some "507f1f77bcf86cd799439011";
     JoinBody.userEmail := Some "c@x.com" |}.

(** The participation of [c@x.com] in [cleanup], joined at [sampleNow]. *)
Definition sampleJoined : Joined.t :=
  {| Joined._id := otherId;
     Joined.eventId := sampleId;
     Joined.userEmail := "c@x.com";
     Joined.joinedAt := sampleNow;
     Joined.eventTitle := "Cleanup";
     Joined.eventType := "Cleanup";
     Joined.thumbnail := "https://placehold.co/600x400";
     Joined.location := "City Park";
     Joined.eventDate := 1893456000000;
     Joined.creatorEmail := "a@x.com" |}.

Definition joinedDB : DB := mkDB [cleanup] [sampleJoined].

Definition pastDB : DB := mkDB [pastCleanup] [].

(** An event is created, joined by [c@x.com] and then updated by its
    creator. *)
Definition sampleCalls : list Call :=
  [PostEvents sampleCreate sampleNow sampleNow sampleId;
   PostJoinEvent sampleJoin sampleNow otherId;
   PutEventsId "507f1f77bcf86cd799439011" (sampleUpdate (Some "a@x.com"))
     sampleNow].

Definition demoId (n : Byte.byte) : ObjectId :=
  ((zeroByte, zeroByte, zeroByte, zeroByte),
   (zeroByte, zeroByte, zeroByte, zeroByte, zeroByte),
   (zeroByte, zeroByte, n)).

(* ================================================================= *)
(** * Properties *)

(** ** Values and identifiers *)

Lemma truthy_Some (x : field) :
  truthy x = true <-> exists s, x = Some s /\ s <> "".
Proof.
  destruct x as [s|]; simpl.
  - rewrite negb_true_iff, String.eqb_neq. split.
    + intros H. now exists s.
    + intros (s' & [= <-] & H). exact H.
  - split; [discriminate | intros (s & [=] & _)].
Qed.

Lemma truthy_false (x : field) :
  truthy x = false <-> x = None \/ x = Some "".
Proof.
  destruct x as [s|]; simpl.
  - rewrite negb_false_iff, String.eqb_eq. split.
    + intros ->. now right.
    + intros [[=] | [= ->]]. reflexivity.
  - split; [now left | reflexivity].
Qed.

Lemma ObjectId_eqb_eq x y : ObjectId_eqb x y = true <-> x = y.
Proof.
  unfold ObjectId_eqb. destruct (ObjectId_eq_dec x y); split; congruence.
Qed.

Lemma ObjectId_eqb_refl x : ObjectId_eqb x x = true.
Proof. now apply ObjectId_eqb_eq. Qed.

Lemma bytesOfHex_byteHex (b : Byte.byte) (rest : string) :
  bytesOfHex (byteHex b ++ rest) =
  match bytesOfHex rest with Some bs => Some (b :: bs) | None => None end.
Proof.
  destruct b; cbn -[bytesOfHex]; cbn [bytesOfHex]; cbv [hexValue];
    cbn; destruct (bytesOfHex rest); reflexivity.
Qed.

Lemma ObjectId_of_hex_toHexString (o : ObjectId) :
  ObjectId_of_hex (toHexString o) = Some o.
Proof.
  destruct o as [[[[[a b] c] d] [[[[e f] g] h] i]] [[j k] l]].
  unfold ObjectId_of_hex, toHexString, ObjectId_bytes.
  cbn [map String.concat String.append].
  replace (byteHex l) with (byteHex l ++ "")%string by reflexivity.
  rewrite !bytesOfHex_byteHex.
  reflexivity.
Qed.

Lemma hexIsValid_toHexString (o : ObjectId) : hexIsValid (toHexString o) = true.
Proof. unfold hexIsValid. now rewrite ObjectId_of_hex_toHexString. Qed.

Lemma hexNew_toHexString (o : ObjectId) : hexNew (toHexString o) = o.
Proof. unfold hexNew. now rewrite ObjectId_of_hex_toHexString. Qed.

#[export] Instance hexCodec : ObjectIdCodec := {|
  isValid := hexIsValid;
  ObjectId_new := hexNew;
  isValid_empty := eq_refl;
  isValid_toHexString := hexIsValid_toHexString;
  ObjectId_new_toHexString := hexNew_toHexString
|}.

#[export] Instance isoDates : DateParser := {|
  Date_parse := isoDateParse
|}.

Section CodecFacts.
Context {codec : ObjectIdCodec}.

Lemma isValid_nonempty (s : string) : isValid s = true -> s <> "".
Proof. intros H ->. rewrite isValid_empty in H. discriminate. Qed.

Lemma isValid_truthy (s : string) : isValid s = true -> truthy (Some s) = true.
Proof.
  intros H. apply truthy_Some. exists s. split; [reflexivity|].
  now apply isValid_nonempty.
Qed.
End CodecFacts.

(** ** Collections *)

Section CollectionFacts.
Context {A : Type}.
Implicit Types (c l : list A) (q : A -> bool) (key : A -> Z).

Lemma findOne_Some q c d : findOne q c = Some d -> In d c /\ q d = true.
Proof. apply find_some. Qed.

Lemma findOne_None q c : findOne q c = None <-> filter q c = [].
Proof.
  unfold findOne. induction c as [|d c IH]; simpl; [tauto|].
  destruct (q d); [split; discriminate | exact IH].
Qed.

Lemma insertOne_fresh (idOf : A -> ObjectId) doc c :
  ~ In (idOf doc) (map idOf c) ->
  insertOne idOf doc c = Some (c ++ [doc])%list.
Proof.
  intros Hfresh. unfold insertOne.
  destruct (existsb _ c) eqn:E; [|reflexivity].
  apply existsb_exists in E. destruct E as (d & Hd & Heq).
  apply ObjectId_eqb_eq in Heq. exfalso. apply Hfresh.
  rewrite <- Heq. now apply in_map.
Qed.

Lemma insertOne_Some (idOf : A -> ObjectId) doc c c' :
  insertOne idOf doc c = Some c' -> c' = (c ++ [doc])%list.
Proof.
  unfold insertOne. destruct (existsb _ c); congruence.
Qed.

(** [updateOne] replaces the first document the filter accepts. *)
Lemma updateOne_found q set c d :
  findOne q c = Some d ->
  exists c1 c2, c = (c1 ++ d :: c2)%list
                /\ updateOne q set c = (c1 ++ set d :: c2)%list
                /\ Forall (fun x => q x = false) c1.
Proof.
  unfold findOne. induction c as [|x c IH]; simpl; [discriminate|].
  destruct (q x) eqn:E.
  - intros [= ->]. exists [], c. repeat split. constructor.
  - intros H. destruct (IH H) as (c1 & c2 & -> & -> & Hc1).
    exists (x :: c1), c2. repeat split. now constructor.
Qed.

(** [sortBy] permutes its argument into ascending order of the key. *)
Lemma insertSorted_perm key x l : Permutation (x :: l) (insertSorted key x l).
Proof.
  induction l as [|y l IH]; simpl; [reflexivity|].
  destruct (key x <=? key y); [reflexivity|].
  rewrite perm_swap. now constructor.
Qed.

Lemma sortBy_perm key l : Permutation l (sortBy key l).
Proof.
  induction l as [|x l IH]; simpl; [constructor|].
  rewrite <- insertSorted_perm. now constructor.
Qed.

Lemma insertSorted_hd key x a l :
  key a <= key x ->
  HdRel (fun a b => key a <= key b) a l ->
  HdRel (fun a b => key a <= key b) a (insertSorted key x l).
Proof.
  intros Hax Hl. destruct l as [|y l]; simpl.
  - now constructor.
  - destruct (key x <=? key y); constructor; [exact Hax|].
    now inversion Hl.
Qed.

Lemma insertSorted_sorted key x l :
  ascending key l -> ascending key (insertSorted key x l).
Proof.
  unfold ascending. induction 1 as [|y l Hl IH Hhd]; simpl.
  - repeat constructor.
  - destruct (key x <=? key y) eqn:E.
    + constructor; [now constructor|]. constructor. lia.
    + constructor; [exact IH|]. apply insertSorted_hd; [lia | exact Hhd].
Qed.

Lemma sortBy_sorted key l : ascending key (sortBy key l).
Proof.
  induction l as [|x l IH]; simpl; [constructor|].
  now apply insertSorted_sorted.
Qed.

Lemma sortBy_In key l x : In x (sortBy key l) <-> In x l.
Proof.
  split; apply Permutation_in;
    [symmetry|]; apply sortBy_perm.
Qed.

Lemma findSorted_In q key c x :
  In x (findSorted q key c) <-> In x c /\ q x = true.
Proof. unfold findSorted. rewrite sortBy_In. apply filter_In. Qed.

Lemma filter_perm_length q l l' :
  Permutation l l' -> length (filter q l) = length (filter q l').
Proof.
  induction 1 as [|x l l' _ IH|x y l|l l' l'' _ IH1 _ IH2]; simpl.
  - reflexivity.
  - destruct (q x); simpl; congruence.
  - destruct (q x), (q y); reflexivity.
  - congruence.
Qed.
End CollectionFacts.

(** ** Failures of [GET /events/:id] and [PUT /events/:id] *)

Section EventFailures.
Context {codec : ObjectIdCodec} {dates : DateParser}.

(** C3, as amended: for every string [id] that is not a well-formed
    identifier, [GET /events/:id] and [PUT /events/:id] both answer
    400 "Invalid event id.", a ValidationError (not a NotFoundError),
    and the update leaves the database as it was. *)
Theorem C3_malformed_id_is_refused (db : DB) (id : string)
    (b : UpdateBody.t) (now : Z) :
  isValid id = false ->
  get_events_id db id = fail 400 "Invalid event id."
  /\ put_events_id db id b now = (fail 400 "Invalid event id.", db)
  /\ errorKind (get_events_id db id) = Some ValidationError
  /\ errorKind (fst (put_events_id db id b now)) = Some ValidationError.
Proof.
  intros Hid. unfold get_events_id, put_events_id. rewrite Hid. simpl.
  repeat split; reflexivity.
Qed.

Lemma fieldsPresent_orb (b : UpdateBody.t) :
  negb (truthy (UpdateBody.title b))
  || negb (truthy (UpdateBody.description b))
  || negb (truthy (UpdateBody.eventType b))
  || negb (truthy (UpdateBody.thumbnail b))
  || negb (truthy (UpdateBody.location b))
  || negb (truthy (UpdateBody.eventDate b))
  = negb (truthy (UpdateBody.title b) && truthy (UpdateBody.description b)
          && truthy (UpdateBody.eventType b)
          && truthy (UpdateBody.thumbnail b)
          && truthy (UpdateBody.location b)
          && truthy (UpdateBody.eventDate b)).
Proof. now rewrite !negb_andb. Qed.

(** C4, as amended: [PUT /events/:id] makes its checks in the fixed
    order of [updateChecks]: identifier well-formedness, presence of
    [requestorEmail], existence of the event, authorization, presence
    of the fields, the date parsing, the date lying in the future. The
    answer is the refusal of the first check the request does not pass,
    with the database unchanged, whatever the later checks would say;
    a request that passes them all succeeds. *)
Theorem C4_update_answers_first_failing_check (db : DB) (id : string)
    (b : UpdateBody.t) (now : Z) :
  match firstFailing db id b now with
  | Some c =>
      put_events_id db id b now = (refusal c, db)
      /\ errorKind (fst (put_events_id db id b now)) = Some (refusalKind c)
  | None =>
      succeeded (fst (put_events_id db id b now)) = true
      /\ status (fst (put_events_id db id b now)) = 200
  end.
Proof.
  unfold firstFailing, updateChecks, put_events_id. cbn [find passes].
  rewrite fieldsPresent_orb.
  destruct (isValid id); cbn [negb]; [|now split].
  destruct (truthy (UpdateBody.requestorEmail b)); cbn [negb]; [|now split].
  destruct (findOne _ _) as [existing|]; cbn [negb]; [|now split].
  destruct (_ =? _)%string; cbn [negb]; [|now split].
  destruct (_ && _); cbn [negb]; [|now split].
  destruct (Date_parse _) as [d|]; cbn [negb]; [|now split].
  rewrite Z.ltb_antisym.
  destruct (d <=? now); cbn [negb]; now split.
Qed.

(** C5, as amended: for every existing event and every non-empty
    [requestorEmail] different from the stored [creatorEmail],
    [PUT /events/:id] answers 403, an AuthorizationError, whatever the
    other fields are, and the database is unchanged. *)
Theorem C5_other_requestor_is_forbidden (db : DB) (id : string)
    (b : UpdateBody.t) (now : Z) (existing : Event.t) (requestor : string) :
  isValid id = true ->
  findOne (byId (ObjectId_new id)) (eventsCollection db) = Some existing ->
  UpdateBody.requestorEmail b = Some requestor ->
  requestor <> "" ->
  requestor <> Event.creatorEmail existing ->
  put_events_id db id b now
  = (fail 403 "You are not allowed to update this event.", db)
  /\ errorKind (fst (put_events_id db id b now)) = Some AuthorizationError
  /\ snd (put_events_id db id b now) = db.
Proof.
  intros Hid Hfind Hreq Hne Hdiff.
  assert (E : put_events_id db id b now
              = (fail 403 "You are not allowed to update this event.", db)).
  { unfold put_events_id. rewrite Hid, Hreq, Hfind. cbn [negb truthy text].
    apply String.eqb_neq in Hne. rewrite Hne. cbn [negb].
    assert (Hneq : (Event.creatorEmail existing =? requestor)%string = false)
      by (apply String.eqb_neq; congruence).
    now rewrite Hneq. }
  rewrite E. repeat split; reflexivity.
Qed.
End EventFailures.

(** C3, the claim refuted: the string [not-an-id] is no identifier, and
    both handlers answer it with a ValidationError, which is not the
    NotFoundError claimed. *)
Lemma C3_malformed_id_is_not_NotFound :
  isValid "not-an-id" = false
  /\ get_events_id sampleDB "not-an-id" = fail 400 "Invalid event id."
  /\ errorKind (get_events_id sampleDB "not-an-id") = Some ValidationError
  /\ errorKind (get_events_id sampleDB "not-an-id") <> Some NotFoundError
  /\ errorKind (fst (put_events_id sampleDB "not-an-id"
                       (sampleUpdate (Some "a@x.com")) sampleNow))
     = Some ValidationError
  /\ errorKind (fst (put_events_id sampleDB "not-an-id"
                       (sampleUpdate (Some "a@x.com")) sampleNow))
     <> Some NotFoundError.
Proof. vm_compute. repeat split; discriminate. Qed.

Lemma C3_malformed_id_is_refused_witness :
  isValid "not-an-id" = false
  /\ get_events_id sampleDB "not-an-id" = fail 400 "Invalid event id."
  /\ put_events_id sampleDB "not-an-id" (sampleUpdate (Some "a@x.com"))
       sampleNow
     = (fail 400 "Invalid event id.", sampleDB).
Proof.
  split; [reflexivity|].
  pose proof (C3_malformed_id_is_refused sampleDB "not-an-id"
                (sampleUpdate (Some "a@x.com")) sampleNow eq_refl) as H.
  split; apply H.
Defined.

(** C4, the claim refuted: a well-formed identifier of no event, sent
    without [requestorEmail], is answered 400 "requestorEmail is
    required.", a ValidationError, where the claimed order gives a
    NotFoundError. *)
Lemma C4_missing_requestor_precedes_existence :
  isValid "507f1f77bcf86cd799439011" = true
  /\ findOne (byId (ObjectId_new "507f1f77bcf86cd799439011"))
       (eventsCollection emptyDB) = None
  /\ UpdateBody.requestorEmail (sampleUpdate None) = None
  /\ fst (put_events_id emptyDB "507f1f77bcf86cd799439011"
            (sampleUpdate None) sampleNow)
     = fail 400 "requestorEmail is required."
  /\ errorKind (fst (put_events_id emptyDB "507f1f77bcf86cd799439011"
                       (sampleUpdate None) sampleNow))
     = Some ValidationError
  /\ errorKind (fst (put_events_id emptyDB "507f1f77bcf86cd799439011"
                       (sampleUpdate None) sampleNow))
     <> Some NotFoundError.
Proof. vm_compute. repeat split; discriminate. Qed.

(** C5, the claim refuted: the empty [requestorEmail] differs from the
    stored [creatorEmail] of the event, every other field is valid, and
    the answer is 400 "requestorEmail is required.", a ValidationError,
    not an AuthorizationError. *)
Lemma C5_empty_requestor_is_validation_error :
  findOne (byId (ObjectId_new "507f1f77bcf86cd799439011"))
    (eventsCollection sampleDB) = Some cleanup
  /\ "" <> Event.creatorEmail cleanup
  /\ firstFailing sampleDB "507f1f77bcf86cd799439011"
       (sampleUpdate (Some "a@x.com")) sampleNow = None
  /\ put_events_id sampleDB "507f1f77bcf86cd799439011"
       (sampleUpdate (Some "")) sampleNow
     = (fail 400 "requestorEmail is required.", sampleDB)
  /\ errorKind (fst (put_events_id sampleDB "507f1f77bcf86cd799439011"
                       (sampleUpdate (Some "")) sampleNow))
     = Some ValidationError
  /\ errorKind (fst (put_events_id sampleDB "507f1f77bcf86cd799439011"
                       (sampleUpdate (Some "")) sampleNow))
     <> Some AuthorizationError.
Proof. vm_compute. repeat split; discriminate. Qed.

Lemma C5_other_requestor_is_forbidden_witness :
  put_events_id sampleDB "507f1f77bcf86cd799439011"
    (sampleUpdate (Some "b@x.com")) sampleNow
  = (fail 403 "You are not allowed to update this event.", sampleDB)
  /\ errorKind (fst (put_events_id sampleDB "507f1f77bcf86cd799439011"
                       (sampleUpdate (Some "b@x.com")) sampleNow))
     = Some AuthorizationError
  /\ snd (put_events_id sampleDB "507f1f77bcf86cd799439011"
            (sampleUpdate (Some "b@x.com")) sampleNow) = sampleDB.
Proof.
  apply (C5_other_requestor_is_forbidden sampleDB "507f1f77bcf86cd799439011"
           (sampleUpdate (Some "b@x.com")) sampleNow cleanup "b@x.com").
  - reflexivity.
  - reflexivity.
  - reflexivity.
  - discriminate.
  - discriminate.
Defined.

(** ** [POST /join-event] *)

Section Join.
Context {codec : ObjectIdCodec} {dates : DateParser}.

Lemma missing_truthy (x : field) : missing x <-> truthy x = false.
Proof. symmetry. apply truthy_false. Qed.

Lemma participations_nil_findOne (db : DB) (o : ObjectId) (u : string) :
  participations db o u = [] <->
  findOne (byPair o u) (joinedCollection db) = None.
Proof. symmetry. apply findOne_None. Qed.

Lemma byPair_true (o : ObjectId) (u : string) (j : Joined.t) :
  byPair o u j = true <-> Joined.eventId j = o /\ Joined.userEmail j = u.
Proof.
  unfold byPair. now rewrite andb_true_iff, ObjectId_eqb_eq, String.eqb_eq.
Qed.

Lemma byId_true (o : ObjectId) (e : Event.t) :
  byId o e = true <-> Event._id e = o.
Proof. apply ObjectId_eqb_eq. Qed.

Lemma findOne_byId (o : ObjectId) (c : list Event.t) (e : Event.t) :
  findOne (byId o) c = Some e -> In e c /\ Event._id e = o.
Proof.
  intros H. apply findOne_Some in H. now rewrite byId_true in H.
Qed.

(** The participation [POST /join-event] builds. *)
Lemma join_succeeds (db : DB) (id userEmail : string) (now : Z)
    (newId : ObjectId) (event : Event.t) :
  isValid id = true ->
  findOne (byId (ObjectId_new id)) (eventsCollection db) = Some event ->
  userEmail <> "" ->
  participations db (ObjectId_new id) userEmail = [] ->
  ~ In newId (map Joined._id (joinedCollection db)) ->
  post_join_event db (JoinBody.mk (Some id) (Some userEmail)) now newId
  = (mkResponse 201
       (EventJoined "You have successfully joined this event." newId),
     mkDB (eventsCollection db)
       (joinedCollection db
        ++ [Joined.mk newId (Event._id event) userEmail now
              (Event.title event) (Event.eventType event)
              (Event.thumbnail event) (Event.location event)
              (Event.eventDate event) (Event.creatorEmail event)])%list).
Proof.
  intros Hid Hfind Hu Hnone Hfresh.
  destruct (findOne_byId _ _ _ Hfind) as [_ Heid].
  unfold post_join_event. cbn [JoinBody.eventId JoinBody.userEmail text].
  rewrite (isValid_truthy _ Hid), Hid.
  assert (Ht : truthy (Some userEmail) = true)
    by (apply truthy_Some; now exists userEmail).
  rewrite Ht, Hfind. cbn [negb orb]. rewrite Heid.
  apply participations_nil_findOne in Hnone. rewrite Hnone.
  now rewrite insertOne_fresh.
Qed.

(** A second participation in the same event is refused. *)
Lemma join_conflict (db : DB) (id userEmail : string) (now : Z)
    (newId : ObjectId) (event : Event.t) (existing : Joined.t) :
  isValid id = true ->
  userEmail <> "" ->
  findOne (byId (ObjectId_new id)) (eventsCollection db) = Some event ->
  In existing (joinedCollection db) ->
  Joined.eventId existing = ObjectId_new id ->
  Joined.userEmail existing = userEmail ->
  post_join_event db (JoinBody.mk (Some id) (Some userEmail)) now newId
  = (fail 400 "You have already joined this event.", db).
Proof.
  intros Hid Hu Hfind Hin Heid Hmail.
  assert (Ht : truthy (Some userEmail) = true)
    by (apply truthy_Some; now exists userEmail).
  destruct (findOne_byId _ _ _ Hfind) as [_ Hevent].
  unfold post_join_event. cbn [JoinBody.eventId JoinBody.userEmail text].
  rewrite (isValid_truthy _ Hid), Hid, Ht, Hfind. cbn [negb orb].
  destruct (findOne (byPair (Event._id event) userEmail)
              (joinedCollection db)) as [j|] eqn:E; [reflexivity|].
  exfalso. apply findOne_None in E.
  assert (Hj : In existing (filter (byPair (Event._id event) userEmail)
                              (joinedCollection db))).
  { apply filter_In. split; [exact Hin|].
    apply byPair_true. rewrite Hevent. now split. }
  rewrite E in Hj. exact Hj.
Qed.

(** C7: [POST /join-event] tells its failures apart, in the order it
    checks. A missing or empty [eventId] or [userEmail] is a
    ValidationError; a non-empty [eventId] that is no well-formed
    identifier is a ValidationError and not a NotFoundError; with both
    fields given, a well-formed [eventId] of no event is a
    NotFoundError; and an existing event the user has a participation
    in is a ConflictError. The database is unchanged each time. *)
Theorem C7_join_failures_are_told_apart :
  (forall db b now newId,
      missing (JoinBody.eventId b) \/ missing (JoinBody.userEmail b) ->
      post_join_event db b now newId
      = (fail 400 "eventId and userEmail are required.", db)
      /\ errorKind (fst (post_join_event db b now newId))
         = Some ValidationError)
  /\ (forall db b now newId id,
         JoinBody.eventId b = Some id -> id <> "" -> isValid id = false ->
         errorKind (fst (post_join_event db b now newId))
         = Some ValidationError
         /\ errorKind (fst (post_join_event db b now newId))
            <> Some NotFoundError
         /\ snd (post_join_event db b now newId) = db)
  /\ (forall db now newId id userEmail,
         isValid id = true -> userEmail <> "" ->
         findOne (byId (ObjectId_new id)) (eventsCollection db) = None ->
         post_join_event db (JoinBody.mk (Some id) (Some userEmail))
           now newId
         = (fail 404 "Event not found.", db)
         /\ errorKind
              (fst (post_join_event db
                      (JoinBody.mk (Some id) (Some userEmail)) now newId))
            = Some NotFoundError)
  /\ (forall db now newId id userEmail event existing,
         isValid id = true -> userEmail <> "" ->
         findOne (byId (ObjectId_new id)) (eventsCollection db)
         = Some event ->
         In existing (joinedCollection db) ->
         Joined.eventId existing = ObjectId_new id ->
         Joined.userEmail existing = userEmail ->
         post_join_event db (JoinBody.mk (Some id) (Some userEmail))
           now newId
         = (fail 400 "You have already joined this event.", db)
         /\ errorKind
              (fst (post_join_event db
                      (JoinBody.mk (Some id) (Some userEmail)) now newId))
            = Some ConflictError).
Proof.
  split; [|split; [|split]].
  - intros db b now newId H.
    assert (E : negb (truthy (JoinBody.eventId b))
                || negb (truthy (JoinBody.userEmail b)) = true).
    { apply orb_true_iff. rewrite !negb_true_iff, <- !missing_truthy.
      exact H. }
    unfold post_join_event. rewrite E. now split.
  - intros db b now newId id Hb Hne Hid.
    unfold post_join_event. rewrite Hb. cbn [text].
    assert (Ht : truthy (Some id) = true)
      by (apply truthy_Some; now exists id).
    rewrite Ht, Hid. cbn [negb orb].
    destruct (truthy (JoinBody.userEmail b)); cbn [negb fst snd];
      repeat split; discriminate.
  - intros db now newId id u Hid Hu Hfind.
    assert (Ht : truthy (Some u) = true)
      by (apply truthy_Some; now exists u).
    unfold post_join_event. cbn [JoinBody.eventId JoinBody.userEmail text].
    rewrite (isValid_truthy _ Hid), Hid, Ht, Hfind. now split.
  - intros db now newId id u event existing Hid Hu Hfind Hin Heid Hmail.
    rewrite (join_conflict db id u now newId event existing) by assumption.
    now split.
Qed.

(** C2: for every well-formed [eventId] of an existing event and every
    non-empty [userEmail] with no participation for the pair, the join
    succeeds (the driver generating an unused identifier) and stores one
    new participation, after those already there: its [joinedAt] is the
    clock reading [now] and its snapshot fields are those of the event
    as stored. The events are untouched. *)
Theorem C2_join_stores_snapshot (db : DB) (id userEmail : string) (now : Z)
    (newId : ObjectId) (event : Event.t) :
  isValid id = true ->
  findOne (byId (ObjectId_new id)) (eventsCollection db) = Some event ->
  userEmail <> "" ->
  participations db (ObjectId_new id) userEmail = [] ->
  ~ In newId (map Joined._id (joinedCollection db)) ->
  let result :=
    post_join_event db (JoinBody.mk (Some id) (Some userEmail)) now newId in
  fst result
  = mkResponse 201
      (EventJoined "You have successfully joined this event." newId)
  /\ eventsCollection (snd result) = eventsCollection db
  /\ exists p,
      joinedCollection (snd result) = (joinedCollection db ++ [p])%list
      /\ Joined._id p = newId
      /\ Joined.eventId p = ObjectId_new id
      /\ Joined.userEmail p = userEmail
      /\ Joined.joinedAt p = now
      /\ Joined.eventTitle p = Event.title event
      /\ Joined.eventType p = Event.eventType event
      /\ Joined.thumbnail p = Event.thumbnail event
      /\ Joined.location p = Event.location event
      /\ Joined.eventDate p = Event.eventDate event
      /\ Joined.creatorEmail p = Event.creatorEmail event.
Proof.
  intros Hid Hfind Hu Hnone Hfresh result. subst result.
  rewrite (join_succeeds db id userEmail now newId event) by assumption.
  destruct (findOne_byId _ _ _ Hfind) as [_ Heid].
  cbn [fst snd eventsCollection joinedCollection].
  split; [reflexivity|]. split; [reflexivity|].
  eexists. split; [reflexivity|]. cbn. now repeat split.
Qed.

Lemma findOne_byId_redate (f : Event.t -> Z) (o : ObjectId)
    (c : list Event.t) :
  findOne (byId o)
    (map (fun e =>
            Event.mk (Event._id e) (Event.title e) (Event.description e)
              (Event.eventType e) (Event.thumbnail e) (Event.location e)
              (f e) (Event.creatorEmail e) (Event.createdAt e)) c)
  = option_map
      (fun e =>
         Event.mk (Event._id e) (Event.title e) (Event.description e)
           (Event.eventType e) (Event.thumbnail e) (Event.location e)
           (f e) (Event.creatorEmail e) (Event.createdAt e))
      (findOne (byId o) c).
Proof.
  unfold findOne. induction c as [|e c IH]; simpl; [reflexivity|].
  unfold byId at 1 3. cbn [Event._id].
  destruct (ObjectId_eqb (Event._id e) o); [reflexivity | exact IH].
Qed.

Lemma join_response_redate (f : Event.t -> Z) (db : DB) (b : JoinBody.t)
    (now : Z) (newId : ObjectId) :
  fst (post_join_event (redate f db) b now newId)
  = fst (post_join_event db b now newId).
Proof.
  unfold post_join_event, redate. cbn [eventsCollection joinedCollection].
  destruct (_ || _); [reflexivity|].
  destruct (negb (isValid _)); [reflexivity|].
  rewrite findOne_byId_redate.
  destruct (findOne (byId _) (eventsCollection db)) as [event|];
    cbn [option_map Event._id]; [|reflexivity].
  destruct (findOne (byPair _ _) _); [reflexivity|].
  unfold insertOne. cbn [Joined._id].
  destruct (existsb _ _); reflexivity.
Qed.

(** C10: the join makes no check on the date of the event. Its answer
    is the same whatever the dates of the stored events are; and under
    the conditions of a successful join, none of which mentions
    [eventDate], the join of an event whose date is not after the clock
    reading succeeds and records the participation with that date. *)
Theorem C10_join_ignores_event_date :
  (forall (f : Event.t -> Z) db b now newId,
      fst (post_join_event (redate f db) b now newId)
      = fst (post_join_event db b now newId))
  /\ (forall db id userEmail now newId event,
         isValid id = true ->
         findOne (byId (ObjectId_new id)) (eventsCollection db)
         = Some event ->
         userEmail <> "" ->
         participations db (ObjectId_new id) userEmail = [] ->
         ~ In newId (map Joined._id (joinedCollection db)) ->
         Event.eventDate event <= now ->
         let result :=
           post_join_event db (JoinBody.mk (Some id) (Some userEmail))
             now newId in
         status (fst result) = 201
         /\ succeeded (fst result) = true
         /\ exists p,
             joinedCollection (snd result)
             = (joinedCollection db ++ [p])%list
             /\ Joined.eventDate p = Event.eventDate event
             /\ Joined.eventDate p <= Joined.joinedAt p).
Proof.
  split; [intros; apply join_response_redate|].
  intros db id userEmail now newId event
    Hid Hfind Hu Hnone Hfresh Hpast result. subst result.
  rewrite (join_succeeds db id userEmail now newId event) by assumption.
  cbn [fst snd status joinedCollection].
  split; [reflexivity|]. split; [reflexivity|].
  eexists. split; [reflexivity|]. cbn. now split.
Qed.
End Join.

Lemma C2_join_stores_snapshot_witness :
  findOne (byId (ObjectId_new "507f1f77bcf86cd799439011"))
    (eventsCollection sampleDB) = Some cleanup
  /\ fst (post_join_event sampleDB sampleJoin sampleNow otherId)
     = mkResponse 201
         (EventJoined "You have successfully joined this event." otherId)
  /\ eventsCollection (snd (post_join_event sampleDB sampleJoin sampleNow
                              otherId))
     = [cleanup].
Proof.
  split; [reflexivity|].
  assert (Hfresh : ~ In otherId (map Joined._id (joinedCollection sampleDB)))
    by (intros []).
  assert (Hne : "c@x.com" <> "") by discriminate.
  pose proof (C2_join_stores_snapshot sampleDB "507f1f77bcf86cd799439011"
                "c@x.com" sampleNow otherId cleanup
                eq_refl eq_refl Hne eq_refl Hfresh) as H.
  split; apply H.
Defined.

Lemma C7_join_failures_are_told_apart_witness :
  errorKind (fst (post_join_event sampleDB (JoinBody.mk None (Some "c@x.com"))
                    sampleNow otherId)) = Some ValidationError
  /\ errorKind (fst (post_join_event sampleDB
                       (JoinBody.mk (Some "not-an-id") (Some "c@x.com"))
                       sampleNow otherId)) = Some ValidationError
  /\ errorKind (fst (post_join_event emptyDB sampleJoin sampleNow otherId))
     = Some NotFoundError
  /\ errorKind (fst (post_join_event joinedDB sampleJoin sampleNow sampleId))
     = Some ConflictError.
Proof.
  destruct (C7_join_failures_are_told_apart (codec := hexCodec))
    as (Hmissing & Hmalformed & Habsent & Hconflict).
  assert (Hne : "c@x.com" <> "") by discriminate.
  assert (Hid : "not-an-id" <> "") by discriminate.
  split; [|split; [|split]].
  - apply (Hmissing sampleDB (JoinBody.mk None (Some "c@x.com"))).
    left. now left.
  - apply (Hmalformed sampleDB
             (JoinBody.mk (Some "not-an-id") (Some "c@x.com"))
             sampleNow otherId "not-an-id" eq_refl Hid eq_refl).
  - apply (Habsent emptyDB sampleNow otherId "507f1f77bcf86cd799439011"
             "c@x.com" eq_refl Hne eq_refl).
  - apply (Hconflict joinedDB sampleNow sampleId "507f1f77bcf86cd799439011"
             "c@x.com" cleanup sampleJoined eq_refl Hne eq_refl).
    + now left.
    + reflexivity.
    + reflexivity.
Defined.

Lemma C10_join_ignores_event_date_witness :
  Event.eventDate pastCleanup <= sampleNow
  /\ status (fst (post_join_event pastDB sampleJoin sampleNow otherId)) = 201
  /\ succeeded (fst (post_join_event pastDB sampleJoin sampleNow otherId))
     = true.
Proof.
  assert (Hpast : Event.eventDate pastCleanup <= sampleNow)
    by (vm_compute; discriminate).
  split; [exact Hpast|].
  assert (Hfresh : ~ In otherId (map Joined._id (joinedCollection pastDB)))
    by (intros []).
  assert (Hne : "c@x.com" <> "") by discriminate.
  pose proof (proj2 (C10_join_ignores_event_date (codec := hexCodec))
                pastDB "507f1f77bcf86cd799439011" "c@x.com" sampleNow otherId
                pastCleanup eq_refl eq_refl Hne eq_refl Hfresh Hpast) as H.
  split; apply H.
Defined.

(** ** One participation per event and user *)

Section Uniqueness.
Context {codec : ObjectIdCodec} {dates : DateParser}.

Lemma post_events_joined (db : DB) b now now' newId :
  joinedCollection (snd (post_events db b now now' newId))
  = joinedCollection db.
Proof.
  unfold post_events.
  destruct (_ || _); [reflexivity|].
  destruct (Date_parse _) as [d|]; [|reflexivity].
  destruct (d <=? now); [reflexivity|].
  destruct (insertOne _ _ _); reflexivity.
Qed.

Lemma put_events_id_joined (db : DB) id b now :
  joinedCollection (snd (put_events_id db id b now)) = joinedCollection db.
Proof.
  unfold put_events_id.
  destruct (negb (isValid id)); [reflexivity|].
  destruct (negb (truthy _)); [reflexivity|].
  destruct (findOne _ _) as [existing|]; [|reflexivity].
  destruct (negb (_ =? _)%string); [reflexivity|].
  destruct (_ || _); [reflexivity|].
  destruct (Date_parse _) as [d|]; [|reflexivity].
  destruct (d <=? now); reflexivity.
Qed.

Lemma atMostOnePerPair_joined (db db' : DB) :
  joinedCollection db' = joinedCollection db ->
  atMostOnePerPair db -> atMostOnePerPair db'.
Proof.
  intros E H o u. unfold participations. rewrite E. apply H.
Qed.

Lemma post_join_event_preserves (db : DB) b now newId :
  atMostOnePerPair db ->
  atMostOnePerPair (snd (post_join_event db b now newId)).
Proof.
  intros Hinv. unfold post_join_event.
  destruct (_ || _); [exact Hinv|].
  destruct (negb (isValid _)); [exact Hinv|].
  destruct (findOne (byId _) _) as [event|]; [|exact Hinv].
  destruct (findOne (byPair _ _) _) as [existing|] eqn:Hnone; [exact Hinv|].
  match goal with
  | |- context [insertOne ?f ?d ?c] =>
      destruct (insertOne f d c) as [joined'|] eqn:Hins; [|exact Hinv]
  end.
  apply insertOne_Some in Hins. subst joined'.
  intros o u. unfold participations. cbn [snd joinedCollection].
  rewrite filter_app, length_app. cbn [filter].
  match goal with
  | |- context [byPair o u ?d] => destruct (byPair o u d) eqn:Hd
  end.
  - apply byPair_true in Hd. cbn [Joined.eventId Joined.userEmail] in Hd.
    destruct Hd as [<- <-].
    apply findOne_None in Hnone. rewrite Hnone. simpl. lia.
  - specialize (Hinv o u). unfold participations in Hinv. simpl. lia.
Qed.

Lemma handle_preserves (db : DB) (c : Call) :
  atMostOnePerPair db -> atMostOnePerPair (snd (handle db c)).
Proof.
  intros Hinv. destruct c; cbn [handle snd]; try exact Hinv.
  - eapply atMostOnePerPair_joined; [apply post_events_joined | exact Hinv].
  - eapply atMostOnePerPair_joined; [apply put_events_id_joined | exact Hinv].
  - now apply post_join_event_preserves.
Qed.

Lemma run_preserves (cs : list Call) (db : DB) :
  atMostOnePerPair db -> atMostOnePerPair (run db cs).
Proof.
  revert db. induction cs as [|c cs IH]; intros db Hinv; [exact Hinv|].
  apply IH. now apply handle_preserves.
Qed.

Lemma atMostOnePerPair_empty : atMostOnePerPair emptyDB.
Proof. intros o u. simpl. lia. Qed.

Lemma forEvent_findSorted (o : ObjectId) (u : string) (l : list Joined.t) :
  length (forEvent o
            (findSorted (fun j => (Joined.userEmail j =? u)%string)
               Joined.eventDate l))
  = length (filter (byPair o u) l).
Proof.
  unfold forEvent, findSorted.
  rewrite <- (filter_perm_length _ _ _ (sortBy_perm Joined.eventDate _)).
  induction l as [|j l IH]; simpl; [reflexivity|].
  unfold byPair at 1.
  destruct (Joined.userEmail j =? u)%string; simpl;
    destruct (ObjectId_eqb (Joined.eventId j) o); simpl; congruence.
Qed.

(** C1: at most one participation exists for a pair of an event and a
    user, in every state the server reaches by handling requests one
    after the other: the empty database has the property, every handled
    request keeps it, hence every reachable state has it. And a join
    that meets the conditions of success, followed by a second join of
    the same [eventId] and [userEmail], gives one success and then one
    ConflictError that changes nothing; the user's list of
    participations then holds exactly one for that event. *)
Theorem C1_one_participation_per_pair :
  atMostOnePerPair emptyDB
  /\ (forall db c,
         atMostOnePerPair db -> atMostOnePerPair (snd (handle db c)))
  /\ (forall db, reachable db -> atMostOnePerPair db)
  /\ (forall db id userEmail now newId now' newId' event,
         isValid id = true ->
         findOne (byId (ObjectId_new id)) (eventsCollection db)
         = Some event ->
         userEmail <> "" ->
         participations db (ObjectId_new id) userEmail = [] ->
         ~ In newId (map Joined._id (joinedCollection db)) ->
         let b := JoinBody.mk (Some id) (Some userEmail) in
         let first := post_join_event db b now newId in
         let second := post_join_event (snd first) b now' newId' in
         succeeded (fst first) = true
         /\ status (fst first) = 201
         /\ errorKind (fst second) = Some ConflictError
         /\ snd second = snd first
         /\ length (forEvent (ObjectId_new id)
                      (joinedEventsOf
                         (get_joined (snd second) (Some userEmail))))
            = 1%nat).
Proof.
  split; [exact atMostOnePerPair_empty|].
  split; [exact handle_preserves|].
  split.
  { intros db [cs <-]. apply run_preserves, atMostOnePerPair_empty. }
  intros db id userEmail now newId now' newId' event
    Hid Hfind Hu Hnone Hfresh b first second.
  subst b first second.
  destruct (findOne_byId _ _ _ Hfind) as [_ Heid].
  rewrite (join_succeeds db id userEmail now newId event) by assumption.
  cbn [fst snd].
  set (p := Joined.mk newId (Event._id event) userEmail now
              (Event.title event) (Event.eventType event)
              (Event.thumbnail event) (Event.location event)
              (Event.eventDate event) (Event.creatorEmail event)).
  set (db1 := mkDB (eventsCollection db) (joinedCollection db ++ [p])%list).
  rewrite (join_conflict db1 id userEmail now' newId' event p);
    try assumption; try reflexivity.
  - cbn [fst snd].
    split; [reflexivity|]. split; [reflexivity|]. split; [reflexivity|].
    split; [reflexivity|].
    unfold get_joined.
    assert (Ht : truthy (Some userEmail) = true)
      by (apply truthy_Some; now exists userEmail).
    rewrite Ht. cbn [negb joinedEventsOf body json text].
    rewrite forEvent_findSorted.
    subst db1. cbn [joinedCollection].
    rewrite filter_app, length_app.
    unfold participations in Hnone. rewrite Hnone.
    cbn [filter]. unfold byPair at 1. subst p.
    cbn [Joined.eventId Joined.userEmail].
    rewrite Heid, ObjectId_eqb_refl, String.eqb_refl. reflexivity.
  - subst db1. cbn [joinedCollection]. apply in_or_app. right. now left.
Qed.
End Uniqueness.

Lemma C1_one_participation_per_pair_witness :
  atMostOnePerPair
    (run emptyDB
       [PostEvents sampleCreate sampleNow sampleNow sampleId;
        PostJoinEvent sampleJoin sampleNow otherId;
        PostJoinEvent sampleJoin sampleNow sampleId])
  /\ succeeded (fst (post_join_event sampleDB sampleJoin sampleNow otherId))
     = true
  /\ errorKind
       (fst (post_join_event
               (snd (post_join_event sampleDB sampleJoin sampleNow otherId))
               sampleJoin sampleNow sampleId))
     = Some ConflictError.
Proof.
  destruct (C1_one_participation_per_pair (codec := hexCodec)
              (dates := isoDates))
    as (_ & _ & Hreach & Htwice).
  split.
  - apply Hreach. eexists. reflexivity.
  - assert (Hfresh : ~ In otherId
                       (map Joined._id (joinedCollection sampleDB)))
      by (intros []).
    assert (Hne : "c@x.com" <> "") by discriminate.
    pose proof (Htwice sampleDB "507f1f77bcf86cd799439011" "c@x.com"
                  sampleNow otherId sampleNow sampleId cleanup
                  eq_refl eq_refl Hne eq_refl Hfresh) as H.
    split; apply H.
Defined.

(** ** [POST /events] *)

Section Create.
Context {codec : ObjectIdCodec} {dates : DateParser}.

Lemma create_fields_orb (b : CreateBody.t) :
  negb (truthy (CreateBody.title b))
  || negb (truthy (CreateBody.description b))
  || negb (truthy (CreateBody.eventType b))
  || negb (truthy (CreateBody.thumbnail b))
  || negb (truthy (CreateBody.location b))
  || negb (truthy (CreateBody.eventDate b))
  || negb (truthy (CreateBody.creatorEmail b)) = true
  <-> missing (CreateBody.title b) \/ missing (CreateBody.description b)
      \/ missing (CreateBody.eventType b)
      \/ missing (CreateBody.thumbnail b)
      \/ missing (CreateBody.location b)
      \/ missing (CreateBody.eventDate b)
      \/ missing (CreateBody.creatorEmail b).
Proof.
  rewrite !orb_true_iff, !negb_true_iff, <- !missing_truthy. tauto.
Qed.

Lemma post_events_refuses (db : DB) (b : CreateBody.t) (now now' : Z)
    (newId : ObjectId) :
  errorKind (fst (post_events db b now now' newId)) = Some ValidationError
  <-> createInvalid b now.
Proof.
  unfold post_events, createInvalid.
  destruct (_ || _) eqn:Efields.
  - apply create_fields_orb in Efields. cbn. split; [|reflexivity].
    intros _. tauto.
  - assert (Hfields : ~ (missing (CreateBody.title b)
                         \/ missing (CreateBody.description b)
                         \/ missing (CreateBody.eventType b)
                         \/ missing (CreateBody.thumbnail b)
                         \/ missing (CreateBody.location b)
                         \/ missing (CreateBody.eventDate b)
                         \/ missing (CreateBody.creatorEmail b))).
    { rewrite <- create_fields_orb, Efields. discriminate. }
    destruct (Date_parse _) as [d|] eqn:Eparse.
    + destruct (d <=? now) eqn:Enow.
      * cbn. split; [|reflexivity]. intros _.
        do 8 right. exists d. split; [reflexivity|]. lia.
      * assert (Hno : errorKind
                        (fst match insertOne Event._id
                                     {| Event._id := newId;
                                        Event.title :=
                                          text (CreateBody.title b);
                                        Event.description :=
                                          text (CreateBody.description b);
                                        Event.eventType :=
                                          text (CreateBody.eventType b);
                                        Event.thumbnail :=
                                          text (CreateBody.thumbnail b);
                                        Event.location :=
                                          text (CreateBody.location b);
                                        Event.eventDate := d;
                                        Event.creatorEmail :=
                                          text (CreateBody.creatorEmail b);
                                        Event.createdAt := now' |}
                                     (eventsCollection db) with
                             | Some events' =>
                                 (mkResponse 201
                                    (EventCreated
                                       "Event created successfully!" newId),
                                  mkDB events' (joinedCollection db))
                             | None =>
                                 (fail 500 "Failed to create event", db)
                             end)
                      <> Some ValidationError)
          by (destruct (insertOne _ _ _); discriminate).
        split; [intros H; now apply Hno in H|].
        intros H. exfalso.
        destruct H as [H|[H|[H|[H|[H|[H|[H|[H|H]]]]]]]];
          try (apply Hfields; tauto).
        -- discriminate.
        -- destruct H as (d' & [= <-] & Hle). lia.
    + cbn. split; [|reflexivity]. intros _. do 7 right. now left.
Qed.

Lemma not_missing (x : field) : ~ missing x -> x = Some (text x).
Proof.
  destruct x as [s|]; [reflexivity|]. intros H. exfalso. apply H. now left.
Qed.

Lemma findOne_byId_app_fresh (c : list Event.t) (e : Event.t) :
  ~ In (Event._id e) (map Event._id c) ->
  findOne (byId (Event._id e)) (c ++ [e]) = Some e.
Proof.
  unfold findOne. induction c as [|x c IH]; simpl; intros Hfresh.
  - unfold byId. now rewrite ObjectId_eqb_refl.
  - unfold byId at 1.
    destruct (ObjectId_eqb (Event._id x) (Event._id e)) eqn:E.
    + apply ObjectId_eqb_eq in E. exfalso. apply Hfresh. now left.
    + apply IH. intros H. apply Hfresh. now right.
Qed.

Lemma post_events_accepts (db : DB) (b : CreateBody.t) (now now' : Z)
    (newId : ObjectId) :
  ~ createInvalid b now ->
  ~ In newId (map Event._id (eventsCollection db)) ->
  exists d,
    Date_parse (text (CreateBody.eventDate b)) = Some d /\ now < d
    /\ post_events db b now now' newId
       = (mkResponse 201 (EventCreated "Event created successfully!" newId),
          mkDB (eventsCollection db
                ++ [Event.mk newId (text (CreateBody.title b))
                      (text (CreateBody.description b))
                      (text (CreateBody.eventType b))
                      (text (CreateBody.thumbnail b))
                      (text (CreateBody.location b)) d
                      (text (CreateBody.creatorEmail b)) now'])%list
            (joinedCollection db)).
Proof.
  intros Hvalid Hfresh. unfold post_events.
  destruct (_ || _) eqn:Efields.
  { exfalso. apply Hvalid. apply create_fields_orb in Efields.
    unfold createInvalid. tauto. }
  destruct (Date_parse _) as [d|] eqn:Eparse.
  2:{ exfalso. apply Hvalid. unfold createInvalid. rewrite Eparse.
      do 7 right. now left. }
  destruct (d <=? now) eqn:Enow.
  { exfalso. apply Hvalid. unfold createInvalid. rewrite Eparse.
    do 8 right. exists d. split; [reflexivity | lia]. }
  exists d. split; [reflexivity|]. split; [lia|].
  now rewrite insertOne_fresh.
Qed.

(** C6: [POST /events] answers with a ValidationError exactly when a
    required field is missing or empty, or the date does not parse, or
    the date is not after the clock reading [now]. Otherwise (the driver
    generating an unused identifier) it succeeds and inserts one event,
    after those already there, whose fields are the strings of the
    body, whose date is the parsed one and whose [createdAt] is the
    clock reading [now'] taken for it; the join records are untouched;
    and [GET /events/:id] of the returned identifier then answers that
    event, whose [createdAt] is not after any instant from [now'] on. *)
Theorem C6_create_validates_and_inserts :
  (forall db b now now' newId,
      errorKind (fst (post_events db b now now' newId))
      = Some ValidationError
      <-> createInvalid b now)
  /\ (forall db b now now' newId,
         ~ createInvalid b now ->
         ~ In newId (map Event._id (eventsCollection db)) ->
         let result := post_events db b now now' newId in
         fst result
         = mkResponse 201 (EventCreated "Event created successfully!" newId)
         /\ joinedCollection (snd result) = joinedCollection db
         /\ exists e,
             eventsCollection (snd result)
             = (eventsCollection db ++ [e])%list
             /\ get_events_id (snd result) (toHexString newId)
                = json (EventDetails e)
             /\ Event._id e = newId
             /\ CreateBody.title b = Some (Event.title e)
             /\ CreateBody.description b = Some (Event.description e)
             /\ CreateBody.eventType b = Some (Event.eventType e)
             /\ CreateBody.thumbnail b = Some (Event.thumbnail e)
             /\ CreateBody.location b = Some (Event.location e)
             /\ Date_parse (text (CreateBody.eventDate b))
                = Some (Event.eventDate e)
             /\ now < Event.eventDate e
             /\ CreateBody.creatorEmail b = Some (Event.creatorEmail e)
             /\ Event.createdAt e = now'
             /\ forall t, now' <= t -> Event.createdAt e <= t).
Proof.
  split; [exact post_events_refuses|].
  intros db b now now' newId Hvalid Hfresh result. subst result.
  destruct (post_events_accepts db b now now' newId Hvalid Hfresh)
    as (d & Hparse & Hfuture & ->).
  cbn [fst snd joinedCollection eventsCollection].
  split; [reflexivity|]. split; [reflexivity|].
  eexists. split; [reflexivity|].
  unfold createInvalid in Hvalid.
  split.
  { unfold get_events_id.
    rewrite isValid_toHexString, ObjectId_new_toHexString.
    cbn [negb eventsCollection].
    change newId with
      (Event._id
         (Event.mk newId (text (CreateBody.title b))
            (text (CreateBody.description b))
            (text (CreateBody.eventType b))
            (text (CreateBody.thumbnail b))
            (text (CreateBody.location b)) d
            (text (CreateBody.creatorEmail b)) now')) at 1.
    now rewrite findOne_byId_app_fresh. }
  cbn.
  repeat split; try (apply not_missing; tauto); try assumption.
  intros t Ht. exact Ht.
Qed.
End Create.

Lemma C6_create_validates_and_inserts_witness :
  ~ createInvalid sampleCreate sampleNow
  /\ fst (post_events emptyDB sampleCreate sampleNow (sampleNow + 1) sampleId)
     = mkResponse 201 (EventCreated "Event created successfully!" sampleId)
  /\ joinedCollection
       (snd (post_events emptyDB sampleCreate sampleNow (sampleNow + 1)
               sampleId))
     = [].
Proof.
  assert (Hvalid : ~ createInvalid sampleCreate sampleNow).
  { unfold createInvalid, missing. cbn.
    intros [H|[H|[H|[H|[H|[H|[H|[H|H]]]]]]]];
      try (destruct H; discriminate); try discriminate.
    destruct H as (d & [= <-] & Hle). vm_compute in Hle. now apply Hle. }
  split; [exact Hvalid|].
  assert (Hfresh : ~ In sampleId (map Event._id (eventsCollection emptyDB)))
    by (intros []).
  pose proof (proj2 (C6_create_validates_and_inserts (codec := hexCodec)
                       (dates := isoDates))
                emptyDB sampleCreate sampleNow (sampleNow + 1) sampleId
                Hvalid Hfresh) as H.
  split; apply H.
Defined.

(** ** [GET /events/upcoming] *)

Section Upcoming.
Context {codec : ObjectIdCodec} {dates : DateParser}.

(** C8: for every state of the events and every clock reading [now],
    [GET /events/upcoming] answers a list that is in ascending order of
    [eventDate] and holds exactly the events, each as often as stored,
    whose [eventDate] is strictly after [now]; an event whose
    [eventDate] is [now] is not in it. *)
Theorem C8_upcoming_is_strictly_later_and_sorted (db : DB) (now : Z) :
  let events := eventsOf (get_events_upcoming db now) in
  body (get_events_upcoming db now) = EventList (length events) events
  /\ status (get_events_upcoming db now) = 200
  /\ ascending Event.eventDate events
  /\ Permutation events
       (filter (fun e => now <? Event.eventDate e) (eventsCollection db))
  /\ (forall e,
         In e events
         <-> In e (eventsCollection db) /\ now < Event.eventDate e)
  /\ (forall e, Event.eventDate e = now -> ~ In e events).
Proof.
  cbn [get_events_upcoming eventsOf body status json].
  split; [reflexivity|]. split; [reflexivity|].
  split; [apply sortBy_sorted|].
  split; [symmetry; apply sortBy_perm|].
  split.
  - intros e. rewrite findSorted_In, Z.ltb_lt. reflexivity.
  - intros e He Hin. apply findSorted_In in Hin.
    destruct Hin as [_ Hlt]. apply Z.ltb_lt in Hlt. lia.
Qed.
End Upcoming.

(** ** What [PUT /events/:id] leaves alone *)

Section UpdateFrame.
Context {codec : ObjectIdCodec} {dates : DateParser}.

(** C9: a successful update replaces one event, the first with the
    identifier, by one with the same [_id], [creatorEmail] and
    [createdAt] and with the title, description, type, thumbnail,
    location and parsed date of the body; every other event is as
    before, and so is every participation with its snapshot, hence also
    every user's list of participations. *)
Theorem C9_update_changes_mutable_fields_only (db : DB) (id : string)
    (b : UpdateBody.t) (now : Z) :
  succeeded (fst (put_events_id db id b now)) = true ->
  let db' := snd (put_events_id db id b now) in
  joinedCollection db' = joinedCollection db
  /\ (forall email, get_joined db' email = get_joined db email)
  /\ exists before existing after updated,
      eventsCollection db = (before ++ existing :: after)%list
      /\ eventsCollection db' = (before ++ updated :: after)%list
      /\ Forall (fun e => Event._id e <> ObjectId_new id) before
      /\ Event._id existing = ObjectId_new id
      /\ Event._id updated = Event._id existing
      /\ Event.creatorEmail updated = Event.creatorEmail existing
      /\ Event.createdAt updated = Event.createdAt existing
      /\ UpdateBody.title b = Some (Event.title updated)
      /\ UpdateBody.description b = Some (Event.description updated)
      /\ UpdateBody.eventType b = Some (Event.eventType updated)
      /\ UpdateBody.thumbnail b = Some (Event.thumbnail updated)
      /\ UpdateBody.location b = Some (Event.location updated)
      /\ Date_parse (text (UpdateBody.eventDate b))
         = Some (Event.eventDate updated).
Proof.
  intros Hok db'. subst db'.
  split; [apply put_events_id_joined|].
  split.
  { intros email. unfold get_joined. now rewrite put_events_id_joined. }
  revert Hok. unfold put_events_id.
  destruct (negb (isValid id)); [discriminate|].
  destruct (negb (truthy _)); [discriminate|].
  destruct (findOne _ _) as [existing|] eqn:Hfind; [|discriminate].
  destruct (negb (_ =? _)%string); [discriminate|].
  destruct (_ || _) eqn:Efields; [discriminate|].
  destruct (Date_parse _) as [d|] eqn:Eparse; [|discriminate].
  destruct (d <=? now); [discriminate|].
  intros _. cbn [snd eventsCollection].
  rewrite fieldsPresent_orb, negb_false_iff, !andb_true_iff in Efields.
  destruct Efields as [[[[[Ht Hd] Hty] Hth] Hl] He].
  destruct (updateOne_found (byId (ObjectId_new id))
              (setEvent (text (UpdateBody.title b))
                 (text (UpdateBody.description b))
                 (text (UpdateBody.eventType b))
                 (text (UpdateBody.thumbnail b))
                 (text (UpdateBody.location b)) d)
              _ _ Hfind) as (c1 & c2 & Hc & Hc' & Hc1).
  destruct (findOne_byId _ _ _ Hfind) as [_ Heid].
  exists c1, existing, c2. eexists.
  split; [exact Hc|]. split; [exact Hc'|].
  split.
  { eapply Forall_impl; [|exact Hc1]. cbn. intros e Hq Heq.
    apply byId_true in Heq. congruence. }
  split; [exact Heid|].
  cbn.
  assert (Hsome : forall x : field, truthy x = true -> x = Some (text x)).
  { intros [s|]; [reflexivity | discriminate]. }
  repeat split; try (now apply Hsome).
Qed.
End UpdateFrame.

Lemma C9_update_changes_mutable_fields_only_witness :
  succeeded (fst (put_events_id joinedDB "507f1f77bcf86cd799439011"
                    (sampleUpdate (Some "a@x.com")) sampleNow)) = true
  /\ joinedCollection
       (snd (put_events_id joinedDB "507f1f77bcf86cd799439011"
               (sampleUpdate (Some "a@x.com")) sampleNow))
     = [sampleJoined].
Proof.
  assert (Hok : succeeded
                  (fst (put_events_id joinedDB "507f1f77bcf86cd799439011"
                          (sampleUpdate (Some "a@x.com")) sampleNow)) = true)
    by reflexivity.
  split; [exact Hok|].
  apply (C9_update_changes_mutable_fields_only joinedDB
           "507f1f77bcf86cd799439011" (sampleUpdate (Some "a@x.com"))
           sampleNow Hok).
Defined.

(** ** The scenario of the specification *)

(** An event is created by [a@x.com]; [b@x.com] may not update it;
    [c@x.com] joins and the snapshot carries the title; a second join of
    [c@x.com] is a conflict. *)
Example scenario :
  let created :=
    post_events emptyDB sampleCreate sampleNow sampleNow sampleId in
  let id := "507f1f77bcf86cd799439011" in
  let updated :=
    put_events_id (snd created) id (sampleUpdate (Some "b@x.com")) sampleNow in
  let joined := post_join_event (snd updated) sampleJoin sampleNow otherId in
  let again := post_join_event (snd joined) sampleJoin sampleNow sampleId in
  status (fst created) = 201
  /\ errorKind (fst updated) = Some AuthorizationError
  /\ status (fst joined) = 201
  /\ map Joined.eventTitle (joinedCollection (snd joined)) = ["Cleanup"]
  /\ errorKind (fst again) = Some ConflictError
  /\ snd again = snd joined.
Proof. vm_compute. repeat split. Qed.

(** An event dated exactly [now] is not upcoming; a later one is. *)
Example upcoming_excludes_now :
  eventsOf (get_events_upcoming sampleDB 1893456000000) = []
  /\ eventsOf (get_events_upcoming sampleDB 1893455999999) = [cleanup].
Proof. vm_compute. split; reflexivity. Qed.

(** Each check of the update can be the first one to fail. *)
Example first_failing_checks :
  let id := "507f1f77bcf86cd799439011" in
  firstFailing sampleDB "not-an-id" (sampleUpdate None) sampleNow
  = Some IdWellFormed
  /\ firstFailing emptyDB id (sampleUpdate None) sampleNow
     = Some RequestorPresent
  /\ firstFailing emptyDB id (sampleUpdate (Some "b@x.com")) sampleNow
     = Some EventExists
  /\ firstFailing sampleDB id (sampleUpdate (Some "b@x.com")) sampleNow
     = Some RequestorIsCreator
  /\ firstFailing sampleDB id (sampleUpdate (Some "a@x.com")) 2000000000000
     = Some DateInFuture
  /\ firstFailing sampleDB id (sampleUpdate (Some "a@x.com")) sampleNow
     = None.
Proof. vm_compute. repeat split. Qed.

(* ================================================================= *)
(** * Further properties of the handlers *)

(** ** The listings *)

Section Listings.
Context {codec : ObjectIdCodec} {dates : DateParser}.

Lemma filter_all {A : Type} (l : list A) : filter (fun _ => true) l = l.
Proof. induction l as [|x l IH]; simpl; congruence. Qed.

(** X1: [GET /events] answers every stored event, each as often as
    stored, in ascending order of [eventDate], and [count] is the number
    of stored events. *)
Theorem X1_get_events_lists_all (db : DB) :
  let events := eventsOf (get_events db) in
  get_events db = json (EventList (length (eventsCollection db)) events)
  /\ ascending Event.eventDate events
  /\ Permutation events (eventsCollection db)
  /\ (forall now e, In e (eventsOf (get_events_upcoming db now)) ->
                    In e events).
Proof.
  intros events. subst events. unfold get_events.
  cbn [eventsOf body json]. unfold findSorted.
  rewrite filter_all.
  assert (Hperm : Permutation (sortBy Event.eventDate (eventsCollection db))
                    (eventsCollection db))
    by (symmetry; apply sortBy_perm).
  split; [now rewrite (Permutation_length Hperm)|].
  split; [apply sortBy_sorted|]. split; [exact Hperm|].
  intros now e Hin. unfold get_events_upcoming in Hin.
  cbn [eventsOf body json] in Hin.
  apply findSorted_In in Hin. apply sortBy_In. tauto.
Qed.

(** X2: [GET /events/user] answers 400 "User email is required." exactly
    when the [email] parameter is missing or empty; otherwise it answers
    exactly the stored events whose [creatorEmail] is that string, in
    ascending order of [eventDate], with their number as [count]. *)
Theorem X2_get_events_user_lists_the_creators_events :
  (forall db email,
      get_events_user db email = fail 400 "User email is required."
      <-> missing email)
  /\ (forall db email,
         email <> "" ->
         let events := eventsOf (get_events_user db (Some email)) in
         get_events_user db (Some email)
         = json (EventList (length events) events)
         /\ ascending Event.eventDate events
         /\ Permutation events
              (filter (fun e => (Event.creatorEmail e =? email)%string)
                 (eventsCollection db))
         /\ (forall e,
                In e events
                <-> In e (eventsCollection db)
                    /\ Event.creatorEmail e = email)).
Proof.
  split.
  - intros db email. rewrite missing_truthy. unfold get_events_user.
    destruct (truthy email); cbn [negb]; split;
      try reflexivity; discriminate.
  - intros db email Hne events. subst events. unfold get_events_user.
    assert (Ht : truthy (Some email) = true)
      by (apply truthy_Some; now exists email).
    rewrite Ht. cbn [negb text eventsOf body json].
    split; [reflexivity|]. split; [apply sortBy_sorted|].
    split; [symmetry; apply sortBy_perm|].
    intros e. now rewrite findSorted_In, String.eqb_eq.
Qed.

(** X3: [GET /joined] answers 400 "User email is required." exactly when
    the [email] parameter is missing or empty; otherwise it answers
    exactly the stored participations of that user, in ascending order of
    the [eventDate] of their snapshots, with their number as [count]. *)
Theorem X3_get_joined_lists_the_users_participations :
  (forall db email,
      get_joined db email = fail 400 "User email is required."
      <-> missing email)
  /\ (forall db email,
         email <> "" ->
         let joinedEvents := joinedEventsOf (get_joined db (Some email)) in
         get_joined db (Some email)
         = json (JoinedList (length joinedEvents) joinedEvents)
         /\ ascending Joined.eventDate joinedEvents
         /\ Permutation joinedEvents
              (filter (fun j => (Joined.userEmail j =? email)%string)
                 (joinedCollection db))
         /\ (forall j,
                In j joinedEvents
                <-> In j (joinedCollection db)
                    /\ Joined.userEmail j = email)).
Proof.
  split.
  - intros db email. rewrite missing_truthy. unfold get_joined.
    destruct (truthy email); cbn [negb]; split;
      try reflexivity; discriminate.
  - intros db email Hne joinedEvents. subst joinedEvents. unfold get_joined.
    assert (Ht : truthy (Some email) = true)
      by (apply truthy_Some; now exists email).
    rewrite Ht. cbn [negb text joinedEventsOf body json].
    split; [reflexivity|]. split; [apply sortBy_sorted|].
    split; [symmetry; apply sortBy_perm|].
    intros j. now rewrite findSorted_In, String.eqb_eq.
Qed.
End Listings.

Lemma X2_get_events_user_lists_the_creators_events_witness :
  "a@x.com" <> ""
  /\ eventsOf (get_events_user sampleDB (Some "a@x.com")) = [cleanup]
  /\ forall e,
      In e (eventsOf (get_events_user sampleDB (Some "a@x.com")))
      <-> In e (eventsCollection sampleDB)
          /\ Event.creatorEmail e = "a@x.com".
Proof.
  assert (Hne : "a@x.com" <> "") by discriminate.
  split; [exact Hne|]. split; [reflexivity|].
  apply (proj2 X2_get_events_user_lists_the_creators_events sampleDB
           "a@x.com" Hne).
Defined.

Lemma X3_get_joined_lists_the_users_participations_witness :
  "c@x.com" <> ""
  /\ joinedEventsOf (get_joined joinedDB (Some "c@x.com")) = [sampleJoined]
  /\ forall j,
      In j (joinedEventsOf (get_joined joinedDB (Some "c@x.com")))
      <-> In j (joinedCollection joinedDB)
          /\ Joined.userEmail j = "c@x.com".
Proof.
  assert (Hne : "c@x.com" <> "") by discriminate.
  split; [exact Hne|]. split; [reflexivity|].
  apply (proj2 X3_get_joined_lists_the_users_participations joinedDB
           "c@x.com" Hne).
Defined.

(** ** What a handled request does to the database *)

Section Effects.
Context {codec : ObjectIdCodec} {dates : DateParser}.

Lemma insertOne_unused {A : Type} (idOf : A -> ObjectId) (doc : A)
    (c c' : list A) :
  insertOne idOf doc c = Some c' -> ~ In (idOf doc) (map idOf c).
Proof.
  unfold insertOne. destruct (existsb _ c) eqn:E; [discriminate|].
  intros _ Hin. apply in_map_iff in Hin. destruct Hin as (d & Hd & Hin).
  assert (Hex : existsb (fun d => ObjectId_eqb (idOf d) (idOf doc)) c = true).
  { apply existsb_exists. exists d. split; [exact Hin|].
    now apply ObjectId_eqb_eq. }
  congruence.
Qed.

Lemma truthy_text (x : field) :
  truthy x = true -> x = Some (text x) /\ text x <> "".
Proof.
  intros H. apply truthy_Some in H. destruct H as (s & -> & Hs). now split.
Qed.

(** [POST /events] either fails and changes nothing, or appends one
    event. *)
Lemma post_events_cases (db : DB) (b : CreateBody.t) (now now' : Z)
    (newId : ObjectId) :
  (succeeded (fst (post_events db b now now' newId)) = false
   /\ snd (post_events db b now now' newId) = db)
  \/ (exists e,
         post_events db b now now' newId
         = (mkResponse 201 (EventCreated "Event created successfully!" newId),
            mkDB (eventsCollection db ++ [e])%list (joinedCollection db))
         /\ Event._id e = newId
         /\ ~ In newId (map Event._id (eventsCollection db))
         /\ filledEvent e
         /\ CreateBody.creatorEmail b = Some (Event.creatorEmail e)
         /\ Date_parse (text (CreateBody.eventDate b))
            = Some (Event.eventDate e)
         /\ now < Event.eventDate e
         /\ Event.createdAt e = now').
Proof.
  unfold post_events.
  destruct (_ || _) eqn:Efields; [left; now split|].
  destruct (Date_parse _) as [d|] eqn:Eparse; [|left; now split].
  destruct (d <=? now) eqn:Enow; [left; now split|].
  match goal with
  | |- context [insertOne ?f ?doc ?c] =>
      destruct (insertOne f doc c) as [events'|] eqn:Hins
  end; [|left; now split].
  right. pose proof (insertOne_unused _ _ _ _ Hins) as Hfresh.
  apply insertOne_Some in Hins. subst events'.
  rewrite !orb_false_iff, !negb_false_iff in Efields.
  destruct Efields as [[[[[[Ht Hd] Hty] Hth] Hl] He] Hc].
  eexists. split; [reflexivity|]. cbn.
  split; [reflexivity|]. split; [exact Hfresh|].
  split.
  { unfold filledEvent. cbn. repeat split; now apply truthy_text. }
  split; [now apply truthy_text|].
  split; [reflexivity|]. split; [lia | reflexivity].
Qed.

(** [PUT /events/:id] either fails and changes nothing, or rewrites the
    first event with the identifier, on behalf of its creator. *)
Lemma put_events_id_cases (db : DB) (id : string) (b : UpdateBody.t)
    (now : Z) :
  (succeeded (fst (put_events_id db id b now)) = false
   /\ snd (put_events_id db id b now) = db)
  \/ (exists existing title description eventType thumbnail location d,
         succeeded (fst (put_events_id db id b now)) = true
         /\ snd (put_events_id db id b now)
            = mkDB (updateOne (byId (ObjectId_new id))
                      (setEvent title description eventType thumbnail
                         location d)
                      (eventsCollection db))
                (joinedCollection db)
         /\ isValid id = true
         /\ findOne (byId (ObjectId_new id)) (eventsCollection db)
            = Some existing
         /\ UpdateBody.requestorEmail b = Some (Event.creatorEmail existing)
         /\ Event.creatorEmail existing <> ""
         /\ UpdateBody.title b = Some title /\ title <> ""
         /\ UpdateBody.description b = Some description /\ description <> ""
         /\ UpdateBody.eventType b = Some eventType /\ eventType <> ""
         /\ UpdateBody.thumbnail b = Some thumbnail /\ thumbnail <> ""
         /\ UpdateBody.location b = Some location /\ location <> ""
         /\ Date_parse (text (UpdateBody.eventDate b)) = Some d
         /\ now < d).
Proof.
  unfold put_events_id.
  destruct (isValid id) eqn:Hid; cbn [negb]; [|left; now split].
  destruct (truthy (UpdateBody.requestorEmail b)) eqn:Hreq; cbn [negb];
    [|left; now split].
  destruct (findOne _ _) as [existing|] eqn:Hfind; [|left; now split].
  destruct (_ =? _)%string eqn:Hcreator; cbn [negb]; [|left; now split].
  destruct (_ || _) eqn:Efields; [left; now split|].
  destruct (Date_parse _) as [d|] eqn:Eparse; [|left; now split].
  destruct (d <=? now) eqn:Enow; [left; now split|].
  right.
  rewrite !orb_false_iff, !negb_false_iff in Efields.
  destruct Efields as [[[[[Ht Hd] Hty] Hth] Hl] He].
  apply String.eqb_eq in Hcreator.
  destruct (truthy_text _ Hreq) as [Hr Hrne].
  exists existing, (text (UpdateBody.title b)),
    (text (UpdateBody.description b)), (text (UpdateBody.eventType b)),
    (text (UpdateBody.thumbnail b)), (text (UpdateBody.location b)), d.
  cbn [fst snd].
  split; [reflexivity|]. split; [reflexivity|]. split; [reflexivity|].
  split; [reflexivity|].
  split; [now rewrite Hcreator|]. split; [now rewrite Hcreator|].
  repeat split; try (now apply truthy_text). lia.
Qed.

(** [POST /join-event] either fails and changes nothing, or appends one
    participation in an existing event. *)
Lemma post_join_event_cases (db : DB) (b : JoinBody.t) (now : Z)
    (newId : ObjectId) :
  (succeeded (fst (post_join_event db b now newId)) = false
   /\ snd (post_join_event db b now newId) = db)
  \/ (exists id userEmail event,
         post_join_event db b now newId
         = (mkResponse 201
              (EventJoined "You have successfully joined this event." newId),
            mkDB (eventsCollection db)
              (joinedCollection db
               ++ [Joined.mk newId (Event._id event) userEmail now
                     (Event.title event) (Event.eventType event)
                     (Event.thumbnail event) (Event.location event)
                     (Event.eventDate event) (Event.creatorEmail event)])%list)
         /\ b = JoinBody.mk (Some id) (Some userEmail)
         /\ isValid id = true
         /\ userEmail <> ""
         /\ findOne (byId (ObjectId_new id)) (eventsCollection db)
            = Some event
         /\ participations db (ObjectId_new id) userEmail = []
         /\ ~ In newId (map Joined._id (joinedCollection db))).
Proof.
  unfold post_join_event.
  destruct (_ || _) eqn:Efields; [left; now split|].
  destruct (isValid _) eqn:Hid; cbn [negb]; [|left; now split].
  destruct (findOne (byId _) _) as [event|] eqn:Hfind; [|left; now split].
  destruct (findOne (byPair _ _) _) as [existing|] eqn:Hnone;
    [left; now split|].
  match goal with
  | |- context [insertOne ?f ?doc ?c] =>
      destruct (insertOne f doc c) as [joined'|] eqn:Hins
  end; [|left; now split].
  right. pose proof (insertOne_unused _ _ _ _ Hins) as Hfresh.
  apply insertOne_Some in Hins. subst joined'.
  rewrite orb_false_iff, !negb_false_iff in Efields.
  destruct Efields as [He Hu].
  destruct (truthy_text _ He) as [Hid' _].
  destruct (truthy_text _ Hu) as [Hu' Hune].
  destruct (findOne_byId _ _ _ Hfind) as [_ Heid].
  exists (text (JoinBody.eventId b)), (text (JoinBody.userEmail b)), event.
  split; [reflexivity|].
  split; [destruct b as [e u]; cbn in *; congruence|].
  split; [exact Hid|]. split; [exact Hune|]. split; [exact Hfind|].
  split; [|exact Hfresh].
  apply participations_nil_findOne. now rewrite <- Heid.
Qed.

Lemma run_invariant (P : DB -> Prop) :
  (forall db c, P db -> P (snd (handle db c))) ->
  forall cs db, P db -> P (run db cs).
Proof.
  intros Hstep cs. induction cs as [|c cs IH]; intros db H; [exact H|].
  apply IH. now apply Hstep.
Qed.

(** X4: a request that is answered with a failure leaves both
    collections exactly as they were. *)
Theorem X4_failure_changes_nothing (db : DB) (c : Call) :
  succeeded (fst (handle db c)) = false -> snd (handle db c) = db.
Proof.
  destruct c as [b now now' newId| | | | |id b now|b now newId|];
    cbn [handle fst snd]; try reflexivity; intros Hfail.
  - destruct (post_events_cases db b now now' newId)
      as [[_ H]|(e & H & _)]; [exact H|].
    rewrite H in Hfail. discriminate.
  - destruct (put_events_id_cases db id b now)
      as [[_ H]|(e & t & d & ty & th & l & dt & H & _)]; [exact H|].
    congruence.
  - destruct (post_join_event_cases db b now newId)
      as [[_ H]|(id & u & e & H & _)]; [exact H|].
    rewrite H in Hfail. discriminate.
Qed.
End Effects.

Lemma X4_failure_changes_nothing_witness :
  succeeded (fst (handle joinedDB (PostJoinEvent sampleJoin sampleNow sampleId)))
  = false
  /\ snd (handle joinedDB (PostJoinEvent sampleJoin sampleNow sampleId))
     = joinedDB.
Proof.
  assert (Hfail : succeeded
                    (fst (handle joinedDB
                            (PostJoinEvent sampleJoin sampleNow sampleId)))
                  = false) by reflexivity.
  split; [exact Hfail|].
  apply (X4_failure_changes_nothing joinedDB
           (PostJoinEvent sampleJoin sampleNow sampleId) Hfail).
Defined.

(** ** Invariants of the collections *)

Section Invariants.
Context {codec : ObjectIdCodec} {dates : DateParser}.

Lemma updateOne_map {A B : Type} (f : A -> B) (q : A -> bool)
    (set : A -> A) (c : list A) :
  (forall d, f (set d) = f d) ->
  map f (updateOne q set c) = map f c.
Proof.
  intros Hf. induction c as [|d c IH]; simpl; [reflexivity|].
  destruct (q d); simpl; [now rewrite Hf | now rewrite IH].
Qed.

Lemma updateOne_related {A : Type} (R : A -> A -> Prop) (q : A -> bool)
    (set : A -> A) (c : list A) :
  (forall d, R d d) -> (forall d, R d (set d)) ->
  Forall2 R c (updateOne q set c).
Proof.
  intros Hrefl Hset. induction c as [|d c IH]; simpl; [constructor|].
  destruct (q d).
  - constructor; [apply Hset|]. clear IH.
    induction c; constructor; auto.
  - constructor; [apply Hrefl | exact IH].
Qed.

Lemma updateOne_In {A : Type} (q : A -> bool) (set : A -> A) (c : list A)
    (d' : A) :
  In d' (updateOne q set c) ->
  In d' c \/ exists d, In d c /\ d' = set d.
Proof.
  induction c as [|d c IH]; simpl; [tauto|].
  destruct (q d); simpl.
  - intros [<-|H]; [right; exists d; auto | left; auto].
  - intros [<-|H]; [left; auto|].
    destruct (IH H) as [H'|(x & Hx & ->)]; [left; auto|].
    right. exists x. auto.
Qed.

Lemma setEvent_id t d ty th l dt (e : Event.t) :
  Event._id (setEvent t d ty th l dt e) = Event._id e.
Proof. reflexivity. Qed.

Lemma NoDup_map_app_one {A : Type} (f : A -> ObjectId) (c : list A) (d : A) :
  NoDup (map f c) -> ~ In (f d) (map f c) -> NoDup (map f (c ++ [d])).
Proof.
  intros Hnd Hfresh. rewrite map_app. cbn [map].
  apply NoDup_app; [exact Hnd | repeat constructor; intros [] |].
  intros x Hx [<-|[]]. now apply Hfresh.
Qed.

Lemma NoDup_map_unique {A : Type} (f : A -> ObjectId) (c : list A) (a b : A) :
  NoDup (map f c) -> In a c -> In b c -> f a = f b -> a = b.
Proof.
  induction c as [|x c IH]; simpl; [tauto|].
  intros Hnd Ha Hb Heq. inversion Hnd as [|? ? Hx Hnd']; subst.
  destruct Ha as [<-|Ha], Hb as [<-|Hb]; try reflexivity.
  - exfalso. apply Hx. rewrite Heq. now apply in_map.
  - exfalso. apply Hx. rewrite <- Heq. now apply in_map.
  - now apply IH.
Qed.

Lemma uniqueIds_step (db : DB) (c : Call) :
  uniqueIds db -> uniqueIds (snd (handle db c)).
Proof.
  intros [He Hj].
  destruct c as [b now now' newId| | | | |id b now|b now newId|];
    cbn [handle snd]; try (now split).
  - destruct (post_events_cases db b now now' newId)
      as [[_ ->]|(e & -> & Hid & Hfresh & _)]; [now split|].
    split; [|exact Hj]. cbn [snd eventsCollection].
    apply NoDup_map_app_one; [exact He | now rewrite Hid].
  - destruct (put_events_id_cases db id b now)
      as [[_ ->]|(e & t & d & ty & th & l & dt & _ & -> & _)]; [now split|].
    split; [|exact Hj]. cbn [eventsCollection].
    rewrite updateOne_map; [exact He | reflexivity].
  - destruct (post_join_event_cases db b now newId)
      as [[_ ->]|(id & u & e & -> & _ & _ & _ & _ & _ & Hfresh)];
      [now split|].
    split; [exact He|]. cbn [snd joinedCollection].
    now apply NoDup_map_app_one.
Qed.

(** X5: the identifiers of the events are pairwise distinct, and so are
    those of the participations, in every state the server reaches: the
    property holds of the empty database and every handled request keeps
    it, an insert with an identifier in use being refused. *)
Theorem X5_identifiers_stay_distinct :
  uniqueIds emptyDB
  /\ (forall db c, uniqueIds db -> uniqueIds (snd (handle db c)))
  /\ (forall db, reachable db -> uniqueIds db).
Proof.
  assert (H0 : uniqueIds emptyDB) by (split; constructor).
  split; [exact H0|]. split; [exact uniqueIds_step|].
  intros db [cs <-]. now apply (run_invariant uniqueIds uniqueIds_step).
Qed.

Lemma joinsReferToEvents_step (db : DB) (c : Call) :
  joinsReferToEvents db -> joinsReferToEvents (snd (handle db c)).
Proof.
  intros Hinv.
  destruct c as [b now now' newId| | | | |id b now|b now newId|];
    cbn [handle snd]; try exact Hinv.
  - destruct (post_events_cases db b now now' newId)
      as [[_ ->]|(e & -> & _)]; [exact Hinv|].
    intros j Hj. cbn [snd eventsCollection joinedCollection] in *.
    destruct (Hinv j Hj) as (x & Hx & Hid).
    exists x. split; [apply in_or_app; now left | exact Hid].
  - destruct (put_events_id_cases db id b now)
      as [[_ ->]|(e & t & d & ty & th & l & dt & _ & -> & _)];
      [exact Hinv|].
    intros j Hj. cbn [eventsCollection joinedCollection] in *.
    destruct (Hinv j Hj) as (x & Hx & Hid).
    assert (Hin : In (Joined.eventId j)
                    (map Event._id
                       (updateOne (byId (ObjectId_new id))
                          (setEvent t d ty th l dt) (eventsCollection db)))).
    { rewrite updateOne_map by reflexivity.
      rewrite <- Hid. now apply in_map. }
    apply in_map_iff in Hin. destruct Hin as (x' & Hid' & Hx').
    now exists x'.
  - destruct (post_join_event_cases db b now newId)
      as [[_ ->]|(id & u & e & -> & _ & _ & _ & Hfind & _)];
      [exact Hinv|].
    intros j Hj. cbn [snd eventsCollection joinedCollection] in *.
    apply in_app_or in Hj. destruct Hj as [Hj|[<-|[]]]; [now apply Hinv|].
    exists e. split; [|reflexivity]. now apply (findOne_byId _ _ _ Hfind).
Qed.

(** X6: every participation refers to a stored event, in every state the
    server reaches: a join is recorded only for an event that was found,
    and no handler removes an event or changes its identifier. *)
Theorem X6_participations_refer_to_stored_events :
  joinsReferToEvents emptyDB
  /\ (forall db c,
         joinsReferToEvents db -> joinsReferToEvents (snd (handle db c)))
  /\ (forall db, reachable db -> joinsReferToEvents db).
Proof.
  assert (H0 : joinsReferToEvents emptyDB) by (intros j []).
  split; [exact H0|]. split; [exact joinsReferToEvents_step|].
  intros db [cs <-].
  now apply (run_invariant joinsReferToEvents joinsReferToEvents_step).
Qed.

Lemma consistent_step (db : DB) (c : Call) :
  consistent db -> consistent (snd (handle db c)).
Proof.
  intros (Hu & Hr & Hs).
  split; [now apply uniqueIds_step|].
  split; [now apply joinsReferToEvents_step|].
  destruct c as [b now now' newId| | | | |id b now|b now newId|];
    cbn [handle snd]; try exact Hs.
  - destruct (post_events_cases db b now now' newId)
      as [[_ ->]|(e & -> & Hid & Hfresh & _)]; [exact Hs|].
    intros j x Hj Hx Heq. cbn [snd eventsCollection joinedCollection] in *.
    apply in_app_or in Hx. destruct Hx as [Hx|[<-|[]]]; [now apply Hs|].
    exfalso. apply Hfresh. destruct (Hr j Hj) as (y & Hy & Hyid).
    rewrite <- Hid, Heq, <- Hyid. now apply in_map.
  - destruct (put_events_id_cases db id b now)
      as [[_ ->]|(e & t & d & ty & th & l & dt & _ & -> & _)]; [exact Hs|].
    intros j x Hj Hx Heq. cbn [eventsCollection joinedCollection] in *.
    apply updateOne_In in Hx. destruct Hx as [Hx|(y & Hy & ->)].
    + now apply Hs.
    + cbn [setEvent Event.creatorEmail]. now apply Hs.
  - destruct (post_join_event_cases db b now newId)
      as [[_ ->]|(id & u & e & -> & _ & _ & _ & Hfind & _)]; [exact Hs|].
    intros j x Hj Hx Heq. cbn [snd eventsCollection joinedCollection] in *.
    apply in_app_or in Hj. destruct Hj as [Hj|[<-|[]]]; [now apply Hs|].
    cbn [Joined.creatorEmail Joined.eventId] in *.
    destruct (findOne_byId _ _ _ Hfind) as [He _].
    now rewrite (NoDup_map_unique Event._id _ x e (proj1 Hu) Hx He Heq).
Qed.

(** X7: in every state the server reaches, the [creatorEmail] a
    participation records is the [creatorEmail] of the event it refers
    to, also after the event has been updated: the join copies it from
    the event, whose identifier is that of no other event, and an update
    never writes it. Every handled request keeps the three properties
    together (distinct identifiers, participations referring to stored
    events, snapshots naming the creator). *)
Theorem X7_snapshot_creator_is_the_events_creator :
  consistent emptyDB
  /\ (forall db c, consistent db -> consistent (snd (handle db c)))
  /\ (forall db j e,
         reachable db ->
         In j (joinedCollection db) -> In e (eventsCollection db) ->
         Event._id e = Joined.eventId j ->
         Joined.creatorEmail j = Event.creatorEmail e).
Proof.
  assert (H0 : consistent emptyDB).
  { split; [split; constructor|]. split; [intros j []|intros j e []]. }
  split; [exact H0|]. split; [exact consistent_step|].
  intros db j e [cs <-].
  now apply (run_invariant consistent consistent_step cs emptyDB H0).
Qed.
End Invariants.

(** ** Nothing is removed *)

Section Growth.
Context {codec : ObjectIdCodec} {dates : DateParser}.

Lemma sameIdentity_refl (e : Event.t) : sameIdentity e e.
Proof. repeat split. Qed.

Lemma sameIdentity_trans (a b c : Event.t) :
  sameIdentity a b -> sameIdentity b c -> sameIdentity a c.
Proof. unfold sameIdentity. intuition congruence. Qed.

Lemma sameIdentity_all (l : list Event.t) : Forall2 sameIdentity l l.
Proof. induction l; constructor; auto using sameIdentity_refl. Qed.

Lemma sameIdentity_chain (l1 l2 l3 : list Event.t) :
  Forall2 sameIdentity l1 l2 -> Forall2 sameIdentity l2 l3 ->
  Forall2 sameIdentity l1 l3.
Proof.
  intros H. revert l3. induction H as [|a b l1 l2 Hab _ IH]; intros l3 H23.
  - inversion H23. constructor.
  - inversion H23 as [ | b' c l2' l3' Hbc H' ]; subst. constructor.
    + now apply (sameIdentity_trans a b c).
    + now apply IH.
Qed.

Lemma sameIdentity_In (l l' : list Event.t) (e : Event.t) :
  Forall2 sameIdentity l l' -> In e l ->
  exists e', In e' l' /\ sameIdentity e e'.
Proof.
  induction 1 as [|a b l l' Hab _ IH]; [intros []|].
  intros [<-|Hin].
  - exists b. split; [now left | exact Hab].
  - destruct (IH Hin) as (e' & He' & Hs). exists e'.
    split; [now right | exact Hs].
Qed.

Lemma extends_refl (db : DB) : extends db db.
Proof.
  split.
  - exists []. now rewrite app_nil_r.
  - exists (eventsCollection db), []. rewrite app_nil_r.
    split; [reflexivity | apply sameIdentity_all].
Qed.

Lemma extends_trans (a b c : DB) : extends a b -> extends b c -> extends a c.
Proof.
  intros [[j1 Hj1] (k1 & a1 & He1 & Hk1)] [[j2 Hj2] (k2 & a2 & He2 & Hk2)].
  split.
  - exists (j1 ++ j2)%list. now rewrite Hj2, Hj1, app_assoc.
  - rewrite He1 in Hk2. apply Forall2_app_inv_l in Hk2.
    destruct Hk2 as (k2a & k2b & Hka & _ & ->).
    exists k2a, (k2b ++ a2)%list. split.
    + now rewrite He2, app_assoc.
    + now apply (sameIdentity_chain _ k1).
Qed.

Lemma extends_step (db : DB) (c : Call) : extends db (snd (handle db c)).
Proof.
  destruct c as [b now now' newId| | | | |id b now|b now newId|];
    cbn [handle snd]; try apply extends_refl.
  - destruct (post_events_cases db b now now' newId)
      as [[_ ->]|(e & -> & _)]; [apply extends_refl|].
    split; cbn [snd eventsCollection joinedCollection].
    + exists []. now rewrite app_nil_r.
    + exists (eventsCollection db), [e].
      split; [reflexivity | apply sameIdentity_all].
  - destruct (put_events_id_cases db id b now)
      as [[_ ->]|(e & t & d & ty & th & l & dt & _ & -> & _)];
      [apply extends_refl|].
    split; cbn [eventsCollection joinedCollection].
    + exists []. now rewrite app_nil_r.
    + exists (updateOne (byId (ObjectId_new id)) (setEvent t d ty th l dt)
                (eventsCollection db)), [].
      rewrite app_nil_r. split; [reflexivity|].
      apply updateOne_related; [apply sameIdentity_refl|].
      intros x. repeat split.
  - destruct (post_join_event_cases db b now newId)
      as [[_ ->]|(id & u & e & -> & _)]; [apply extends_refl|].
    split; cbn [snd eventsCollection joinedCollection].
    + eexists. reflexivity.
    + exists (eventsCollection db), []. rewrite app_nil_r.
      split; [reflexivity | apply sameIdentity_all].
Qed.

Lemma extends_run (cs : list Call) (db : DB) : extends db (run db cs).
Proof.
  revert db. induction cs as [|c cs IH]; intros db; [apply extends_refl|].
  apply (extends_trans db (snd (handle db c))); [apply extends_step|].
  apply IH.
Qed.

(** X8: whatever requests are handled, nothing is removed. The
    participations stored before are all still there, unchanged and in
    place, new ones coming after them; the events stored before are all
    still there, in place, each with the [_id], [creatorEmail] and
    [createdAt] it had, new ones coming after them. *)
Theorem X8_nothing_is_removed (db : DB) (cs : list Call) :
  extends db (run db cs)
  /\ (forall j, In j (joinedCollection db) ->
                In j (joinedCollection (run db cs)))
  /\ (forall e, In e (eventsCollection db) ->
                exists e', In e' (eventsCollection (run db cs))
                           /\ sameIdentity e e')
  /\ (length (eventsCollection db)
      <= length (eventsCollection (run db cs)))%nat
  /\ (length (joinedCollection db)
      <= length (joinedCollection (run db cs)))%nat.
Proof.
  pose proof (extends_run cs db) as Hext. split; [exact Hext|].
  destruct Hext as [[js Hj] (kept & added & He & Hk)].
  split; [|split; [|split]].
  - intros j Hin. rewrite Hj. apply in_or_app. now left.
  - intros e Hin. rewrite He.
    destruct (sameIdentity_In _ _ e Hk Hin) as (e' & He' & Hs).
    exists e'. split; [apply in_or_app; now left | exact Hs].
  - rewrite He, length_app, <- (Forall2_length Hk). lia.
  - rewrite Hj, length_app. lia.
Qed.

Lemma filled_step (db : DB) (c : Call) : filled db -> filled (snd (handle db c)).
Proof.
  intros [He Hj].
  destruct c as [b now now' newId| | | | |id b now|b now newId|];
    cbn [handle snd]; try (now split).
  - destruct (post_events_cases db b now now' newId)
      as [[_ ->]|(e & -> & _ & _ & Hfilled & _)]; [now split|].
    split; [|exact Hj]. cbn [snd eventsCollection].
    apply Forall_app. split; [exact He | now constructor].
  - destruct (put_events_id_cases db id b now)
      as [[_ ->]|(e & t & d & ty & th & l & dt & _ & -> & _ & _ & _ & _
                  & _ & Ht & _ & Hd & _ & Hty & _ & Hth & _ & Hl & _)];
      [now split|].
    split; [|exact Hj]. cbn [eventsCollection].
    apply Forall_forall. intros x Hx. rewrite Forall_forall in He.
    apply updateOne_In in Hx. destruct Hx as [Hx|(y & Hy & ->)];
      [now apply He|].
    unfold filledEvent. cbn. repeat split; try assumption.
    apply (He y Hy).
  - destruct (post_join_event_cases db b now newId)
      as [[_ ->]|(id & u & e & -> & _ & _ & Hu & Hfind & _)]; [now split|].
    split; [exact He|]. cbn [snd joinedCollection].
    apply Forall_app. split; [exact Hj|]. constructor; [|constructor].
    rewrite Forall_forall in He.
    destruct (findOne_byId _ _ _ Hfind) as [Hin _].
    destruct (He e Hin) as (H1 & H2 & H3 & H4 & H5 & H6).
    unfold filledJoined. cbn. repeat split; assumption.
Qed.

(** X9: in every state the server reaches, no stored event has an empty
    title, description, type, thumbnail, location or creator, and no
    stored participation an empty user or an empty title, type,
    thumbnail, location or creator in its snapshot: the handlers store
    only fields they found truthy, or copies of stored ones. *)
Theorem X9_stored_text_is_never_empty :
  filled emptyDB
  /\ (forall db c, filled db -> filled (snd (handle db c)))
  /\ (forall db, reachable db -> filled db).
Proof.
  assert (H0 : filled emptyDB) by (split; constructor).
  split; [exact H0|]. split; [exact filled_step|].
  intros db [cs <-]. now apply (run_invariant filled filled_step).
Qed.
End Growth.

(** ** Reading back what was written *)

Section ReadBack.
Context {codec : ObjectIdCodec} {dates : DateParser}.

Lemma findOne_byId_None (o : ObjectId) (c : list Event.t) :
  findOne (byId o) c = None <-> forall e, In e c -> Event._id e <> o.
Proof.
  unfold findOne. induction c as [|x c IH]; simpl.
  - split; [intros _ e [] | reflexivity].
  - unfold byId at 1. destruct (ObjectId_eqb (Event._id x) o) eqn:E.
    + apply ObjectId_eqb_eq in E. split; [discriminate|].
      intros H. exfalso. apply (H x); [now left | exact E].
    + assert (Hne : Event._id x <> o)
        by (intros H; apply ObjectId_eqb_eq in H; congruence).
      rewrite IH. split.
      * intros H e [<-|He]; [exact Hne | now apply H].
      * intros H e He. apply H. now right.
Qed.

Lemma findOne_byId_unique (c : list Event.t) (e : Event.t) :
  NoDup (map Event._id c) -> In e c ->
  findOne (byId (Event._id e)) c = Some e.
Proof.
  intros Hnd Hin.
  destruct (findOne (byId (Event._id e)) c) as [x|] eqn:E.
  - destruct (findOne_byId _ _ _ E) as [Hx Hid].
    now rewrite (NoDup_map_unique Event._id c x e Hnd Hx Hin Hid).
  - exfalso. rewrite findOne_byId_None in E. now apply (E e Hin).
Qed.

Lemma findOne_updateOne (o : ObjectId) (set : Event.t -> Event.t)
    (c : list Event.t) :
  (forall e, Event._id (set e) = Event._id e) ->
  findOne (byId o) (updateOne (byId o) set c)
  = option_map set (findOne (byId o) c).
Proof.
  intros Hid. unfold findOne. induction c as [|x c IH]; simpl; [reflexivity|].
  destruct (byId o x) eqn:E; simpl.
  - unfold byId in *. now rewrite Hid, E.
  - now rewrite E.
Qed.

Lemma updateOne_twice (o : ObjectId) (s1 s2 : Event.t -> Event.t)
    (c : list Event.t) :
  (forall e, Event._id (s1 e) = Event._id e) ->
  updateOne (byId o) s2 (updateOne (byId o) s1 c)
  = updateOne (byId o) (fun e => s2 (s1 e)) c.
Proof.
  intros Hid. induction c as [|x c IH]; simpl; [reflexivity|].
  destruct (byId o x) eqn:E; simpl.
  - unfold byId in *. now rewrite Hid, E.
  - now rewrite E, IH.
Qed.

Lemma updateOne_ext {A : Type} (q : A -> bool) (s s' : A -> A) (c : list A) :
  (forall d, s d = s' d) -> updateOne q s c = updateOne q s' c.
Proof.
  intros H. induction c as [|x c IH]; simpl; [reflexivity|].
  destruct (q x); [now rewrite H | now rewrite IH].
Qed.

(** X10: for a well-formed [id], [GET /events/:id] answers 404 "Event not
    found." exactly when no stored event has the identifier the string
    denotes; otherwise it answers a stored event with that identifier
    (the first one), and nothing else. *)
Theorem X10_get_event_finds_the_identifier (db : DB) (id : string) :
  isValid id = true ->
  (get_events_id db id = fail 404 "Event not found."
   <-> forall e, In e (eventsCollection db) ->
                 Event._id e <> ObjectId_new id)
  /\ (forall e, get_events_id db id = json (EventDetails e) ->
                In e (eventsCollection db) /\ Event._id e = ObjectId_new id)
  /\ ((exists e, In e (eventsCollection db)
                 /\ Event._id e = ObjectId_new id) ->
      exists e, get_events_id db id = json (EventDetails e)).
Proof.
  intros Hid. unfold get_events_id. rewrite Hid. cbn [negb].
  destruct (findOne _ _) as [x|] eqn:E.
  - destruct (findOne_byId _ _ _ E) as [Hx Hxid].
    split; [|split].
    + split; [discriminate|]. intros H. exfalso. now apply (H x).
    + intros e [= <-]. now split.
    + intros _. now exists x.
  - pose proof (proj1 (findOne_byId_None _ _) E) as Hnone.
    split; [|split].
    + split; [intros _; exact Hnone | reflexivity].
    + discriminate.
    + intros (e & He & Heid). exfalso. now apply (Hnone e).
Qed.

(** X11: where the identifiers of the events are pairwise distinct, and
    so in every state the server reaches, every stored event is read
    back by [GET /events/:id] from the hexadecimal form of its
    identifier. *)
Theorem X11_stored_event_is_read_back_by_its_id :
  (forall db e,
      NoDup (map Event._id (eventsCollection db)) ->
      In e (eventsCollection db) ->
      get_events_id db (toHexString (Event._id e)) = json (EventDetails e))
  /\ (forall db e,
         reachable db -> In e (eventsCollection db) ->
         get_events_id db (toHexString (Event._id e))
         = json (EventDetails e)).
Proof.
  assert (H : forall db e,
             NoDup (map Event._id (eventsCollection db)) ->
             In e (eventsCollection db) ->
             get_events_id db (toHexString (Event._id e))
             = json (EventDetails e)).
  { intros db e Hnd Hin. unfold get_events_id.
    rewrite isValid_toHexString, ObjectId_new_toHexString. cbn [negb].
    now rewrite findOne_byId_unique. }
  split; [exact H|].
  intros db e [cs <-] Hin. apply H; [|exact Hin].
  apply (run_invariant uniqueIds uniqueIds_step cs emptyDB).
  split; constructor.
Qed.

(** X12: after a successful update, [GET /events/:id] of the same [id]
    answers the event with the title, description, type, thumbnail and
    location of the body and the parsed date, its creator being the
    requestor. *)
Theorem X12_update_is_read_back (db : DB) (id : string) (b : UpdateBody.t)
    (now : Z) :
  succeeded (fst (put_events_id db id b now)) = true ->
  exists updated,
    get_events_id (snd (put_events_id db id b now)) id
    = json (EventDetails updated)
    /\ Event._id updated = ObjectId_new id
    /\ UpdateBody.title b = Some (Event.title updated)
    /\ UpdateBody.description b = Some (Event.description updated)
    /\ UpdateBody.eventType b = Some (Event.eventType updated)
    /\ UpdateBody.thumbnail b = Some (Event.thumbnail updated)
    /\ UpdateBody.location b = Some (Event.location updated)
    /\ Date_parse (text (UpdateBody.eventDate b))
       = Some (Event.eventDate updated)
    /\ now < Event.eventDate updated
    /\ UpdateBody.requestorEmail b = Some (Event.creatorEmail updated).
Proof.
  intros Hok.
  destruct (put_events_id_cases db id b now)
    as [[Hfail _]|(e & t & d & ty & th & l & dt & _ & -> & Hid & Hfind
                   & Hreq & _ & Ht & _ & Hd & _ & Hty & _ & Hth & _ & Hl
                   & _ & Hparse & Hnow)]; [congruence|].
  exists (setEvent t d ty th l dt e).
  unfold get_events_id. rewrite Hid. cbn [negb eventsCollection].
  rewrite findOne_updateOne by reflexivity. rewrite Hfind.
  destruct (findOne_byId _ _ _ Hfind) as [_ Heid].
  cbn. repeat split; assumption.
Qed.

(** X13: an update that succeeded, sent again with the same body, leaves
    the database as the first one left it, whether the second one
    succeeds or is refused because its date is no longer ahead. *)
Theorem X13_update_twice_is_update_once (db : DB) (id : string)
    (b : UpdateBody.t) (now now' : Z) :
  succeeded (fst (put_events_id db id b now)) = true ->
  snd (put_events_id (snd (put_events_id db id b now)) id b now')
  = snd (put_events_id db id b now).
Proof.
  intros Hok.
  destruct (put_events_id_cases db id b now)
    as [[Hfail _]|(e & t & d & ty & th & l & dt & _ & -> & Hid & Hfind
                   & Hreq & Hcne & Ht & Htne & Hd & Hdne & Hty & Htyne
                   & Hth & Hthne & Hl & Hlne & Hparse & Hnow)];
    [congruence|].
  set (db1 := mkDB _ _).
  destruct (put_events_id_cases db1 id b now')
    as [[_ ->]|(e' & t' & d' & ty' & th' & l' & dt' & _ & -> & _ & _
                & _ & _ & Ht' & _ & Hd' & _ & Hty' & _ & Hth' & _ & Hl'
                & _ & Hparse' & _)]; [reflexivity|].
  assert (t' = t) by congruence. assert (d' = d) by congruence.
  assert (ty' = ty) by congruence. assert (th' = th) by congruence.
  assert (l' = l) by congruence. assert (dt' = dt) by congruence.
  subst. subst db1. cbn [eventsCollection joinedCollection]. f_equal.
  rewrite updateOne_twice by reflexivity.
  apply updateOne_ext. reflexivity.
Qed.

(** X14: an event that was just created is listed: by [GET /events], by
    [GET /events/upcoming] at every clock reading before its date (the
    reading it was validated against is one), and by [GET /events/user]
    for its creator. *)
Theorem X14_created_event_is_listed (db : DB) (b : CreateBody.t)
    (now now' : Z) (newId : ObjectId) :
  ~ createInvalid b now ->
  ~ In newId (map Event._id (eventsCollection db)) ->
  let db' := snd (post_events db b now now' newId) in
  exists e,
    Event._id e = newId
    /\ In e (eventsOf (get_events db'))
    /\ In e (eventsOf (get_events_upcoming db' now))
    /\ (forall t, t < Event.eventDate e ->
                  In e (eventsOf (get_events_upcoming db' t)))
    /\ In e (eventsOf (get_events_user db' (CreateBody.creatorEmail b))).
Proof.
  intros Hvalid Hfresh db'. subst db'.
  destruct (post_events_cases db b now now' newId)
    as [[Hfail _]|(e & Heq & Hid & _ & Hfilled & Hcreator & _ & Hnow & _)].
  { destruct (post_events_accepts db b now now' newId Hvalid Hfresh)
      as (d & _ & _ & H). rewrite H in Hfail. discriminate. }
  rewrite Heq. cbn [snd]. exists e.
  assert (Hin : In e (eventsCollection db ++ [e]))
    by (apply in_or_app; right; now left).
  split; [exact Hid|].
  unfold get_events, get_events_upcoming, get_events_user.
  rewrite Hcreator.
  assert (Ht : truthy (Some (Event.creatorEmail e)) = true).
  { apply truthy_Some. eexists. split; [reflexivity|]. apply Hfilled. }
  rewrite Ht. cbn [negb text eventsOf body json eventsCollection].
  rewrite !findSorted_In.
  split; [now split|]. split; [split; [exact Hin | now apply Z.ltb_lt]|].
  split.
  - intros t Hlt. rewrite findSorted_In.
    split; [exact Hin | now apply Z.ltb_lt].
  - split; [exact Hin | apply String.eqb_refl].
Qed.

(** X15: [POST /join-event] succeeds exactly when both fields are
    non-empty, the [eventId] is well-formed and that of a stored event,
    the user has no participation in it and the generated identifier is
    unused. *)
Theorem X15_join_succeeds_exactly_when (db : DB) (b : JoinBody.t) (now : Z)
    (newId : ObjectId) :
  succeeded (fst (post_join_event db b now newId)) = true
  <-> exists id userEmail event,
      b = JoinBody.mk (Some id) (Some userEmail)
      /\ isValid id = true
      /\ userEmail <> ""
      /\ findOne (byId (ObjectId_new id)) (eventsCollection db) = Some event
      /\ participations db (ObjectId_new id) userEmail = []
      /\ ~ In newId (map Joined._id (joinedCollection db)).
Proof.
  split.
  - intros Hok.
    destruct (post_join_event_cases db b now newId)
      as [[Hfail _]|(id & u & e & _ & H)]; [congruence|].
    now exists id, u, e.
  - intros (id & u & e & -> & Hid & Hu & Hfind & Hnone & Hfresh).
    now rewrite (join_succeeds db id u now newId e).
Qed.
End ReadBack.

Lemma X5_identifiers_stay_distinct_witness :
  uniqueIds (run emptyDB sampleCalls).
Proof.
  apply (proj2 (proj2 (X5_identifiers_stay_distinct (codec := hexCodec)
                         (dates := isoDates)))).
  exists sampleCalls. reflexivity.
Defined.

Lemma X6_participations_refer_to_stored_events_witness :
  joinsReferToEvents (run emptyDB sampleCalls).
Proof.
  apply (proj2 (proj2 (X6_participations_refer_to_stored_events
                         (codec := hexCodec) (dates := isoDates)))).
  exists sampleCalls. reflexivity.
Defined.

Lemma X7_snapshot_creator_is_the_events_creator_witness :
  In sampleJoined (joinedCollection (run emptyDB sampleCalls))
  /\ Joined.creatorEmail sampleJoined
     = Event.creatorEmail
         (nth 0 (eventsCollection (run emptyDB sampleCalls)) cleanup).
Proof.
  assert (Hj : In sampleJoined (joinedCollection (run emptyDB sampleCalls)))
    by (vm_compute; left; reflexivity).
  split; [exact Hj|].
  apply (proj2 (proj2 (X7_snapshot_creator_is_the_events_creator
                         (codec := hexCodec) (dates := isoDates)))
           (run emptyDB sampleCalls)).
  - exists sampleCalls. reflexivity.
  - exact Hj.
  - vm_compute. left. reflexivity.
  - reflexivity.
Defined.

Lemma X9_stored_text_is_never_empty_witness :
  filled (run emptyDB sampleCalls).
Proof.
  apply (proj2 (proj2 (X9_stored_text_is_never_empty (codec := hexCodec)
                         (dates := isoDates)))).
  exists sampleCalls. reflexivity.
Defined.

Lemma X10_get_event_finds_the_identifier_witness :
  isValid "507f1f77bcf86cd799439011" = true
  /\ exists e,
      get_events_id sampleDB "507f1f77bcf86cd799439011"
      = json (EventDetails e).
Proof.
  assert (Hid : isValid "507f1f77bcf86cd799439011" = true) by reflexivity.
  split; [exact Hid|].
  apply (X10_get_event_finds_the_identifier sampleDB
           "507f1f77bcf86cd799439011" Hid).
  exists cleanup. split; [now left | reflexivity].
Defined.

Lemma X11_stored_event_is_read_back_by_its_id_witness :
  In cleanup (eventsCollection sampleDB)
  /\ get_events_id sampleDB (toHexString (Event._id cleanup))
     = json (EventDetails cleanup).
Proof.
  assert (Hin : In cleanup (eventsCollection sampleDB)) by (now left).
  split; [exact Hin|].
  apply (proj1 X11_stored_event_is_read_back_by_its_id sampleDB cleanup);
    [|exact Hin].
  repeat constructor. intros [].
Defined.

Lemma X12_update_is_read_back_witness :
  exists updated,
    get_events_id
      (snd (put_events_id joinedDB "507f1f77bcf86cd799439011"
              (sampleUpdate (Some "a@x.com")) sampleNow))
      "507f1f77bcf86cd799439011"
    = json (EventDetails updated)
    /\ Event.title updated = "Tree plantation".
Proof.
  assert (Hok : succeeded
                  (fst (put_events_id joinedDB "507f1f77bcf86cd799439011"
                          (sampleUpdate (Some "a@x.com")) sampleNow)) = true)
    by reflexivity.
  destruct (X12_update_is_read_back joinedDB "507f1f77bcf86cd799439011"
              (sampleUpdate (Some "a@x.com")) sampleNow Hok)
    as (updated & Hget & _ & Htitle & _).
  exists updated. split; [exact Hget|].
  cbn in Htitle. congruence.
Defined.

Lemma X13_update_twice_is_update_once_witness :
  snd (put_events_id
         (snd (put_events_id joinedDB "507f1f77bcf86cd799439011"
                 (sampleUpdate (Some "a@x.com")) sampleNow))
         "507f1f77bcf86cd799439011" (sampleUpdate (Some "a@x.com"))
         (sampleNow + 1))
  = snd (put_events_id joinedDB "507f1f77bcf86cd799439011"
           (sampleUpdate (Some "a@x.com")) sampleNow).
Proof.
  assert (Hok : succeeded
                  (fst (put_events_id joinedDB "507f1f77bcf86cd799439011"
                          (sampleUpdate (Some "a@x.com")) sampleNow)) = true)
    by reflexivity.
  apply (X13_update_twice_is_update_once joinedDB "507f1f77bcf86cd799439011"
           (sampleUpdate (Some "a@x.com")) sampleNow (sampleNow + 1) Hok).
Defined.

Lemma X14_created_event_is_listed_witness :
  exists e,
    Event._id e = sampleId
    /\ In e (eventsOf
               (get_events_upcoming
                  (snd (post_events emptyDB sampleCreate sampleNow sampleNow
                          sampleId))
                  sampleNow)).
Proof.
  assert (Hvalid : ~ createInvalid sampleCreate sampleNow).
  { unfold createInvalid, missing. cbn.
    intros [H|[H|[H|[H|[H|[H|[H|[H|H]]]]]]]];
      try (destruct H; discriminate); try discriminate.
    destruct H as (d & [= <-] & Hle). vm_compute in Hle. now apply Hle. }
  assert (Hfresh : ~ In sampleId (map Event._id (eventsCollection emptyDB)))
    by (intros []).
  destruct (X14_created_event_is_listed emptyDB sampleCreate sampleNow
              sampleNow sampleId Hvalid Hfresh)
    as (e & Hid & _ & Hup & _).
  exists e. split; [exact Hid | exact Hup].
Defined.

(** ** A join and the other pairs *)

Section JoinFrame.
Context {codec : ObjectIdCodec} {dates : DateParser}.

Lemma findOne_app_one {A : Type} (q : A -> bool) (c : list A) (d : A) :
  q d = false -> findOne q (c ++ [d]) = findOne q c.
Proof.
  intros Hd. unfold findOne. induction c as [|x c IH]; simpl.
  - now rewrite Hd.
  - destruct (q x); [reflexivity | exact IH].
Qed.

(** X16: a join stands in the way of the same pair only. After any join
    request, a join of another event or by another user, for which the
    driver generates another identifier, is answered as it would have
    been before. *)
Theorem X16_join_blocks_only_its_pair (db : DB) (b b2 : JoinBody.t)
    (now now2 : Z) (newId newId2 : ObjectId) :
  (ObjectId_new (text (JoinBody.eventId b2)) <>
   ObjectId_new (text (JoinBody.eventId b))
   \/ text (JoinBody.userEmail b2) <> text (JoinBody.userEmail b)) ->
  newId2 <> newId ->
  fst (post_join_event (snd (post_join_event db b now newId)) b2 now2 newId2)
  = fst (post_join_event db b2 now2 newId2).
Proof.
  intros Hpair Hid.
  destruct (post_join_event_cases db b now newId)
    as [[_ ->]|(id & u & e & -> & -> & _ & _ & Hfind & _)]; [reflexivity|].
  cbn [snd JoinBody.eventId JoinBody.userEmail text] in *.
  destruct (findOne_byId _ _ _ Hfind) as [_ Heid].
  unfold post_join_event. cbn [eventsCollection joinedCollection].
  destruct (_ || _); [reflexivity|].
  destruct (negb (isValid _)); [reflexivity|].
  destruct (findOne (byId (ObjectId_new (text (JoinBody.eventId b2))))
              (eventsCollection db)) as [e2|] eqn:Hfind2; [|reflexivity].
  destruct (findOne_byId _ _ _ Hfind2) as [_ Heid2].
  rewrite findOne_app_one.
  2:{ unfold byPair. cbn [Joined.eventId Joined.userEmail].
      apply andb_false_iff. destruct Hpair as [H|H].
      - left. destruct (ObjectId_eqb (Event._id e) (Event._id e2)) eqn:E;
          [|reflexivity].
        apply ObjectId_eqb_eq in E. congruence.
      - right. apply String.eqb_neq. congruence. }
  destruct (findOne (byPair _ _) _); [reflexivity|].
  unfold insertOne. rewrite existsb_app. cbn [existsb Joined._id].
  assert (Hne : ObjectId_eqb newId newId2 = false).
  { destruct (ObjectId_eqb newId newId2) eqn:E; [|reflexivity].
    apply ObjectId_eqb_eq in E. congruence. }
  rewrite Hne, !orb_false_r.
  destruct (existsb _ _); reflexivity.
Qed.
End JoinFrame.

Lemma X16_join_blocks_only_its_pair_witness :
  fst (post_join_event
         (snd (post_join_event sampleDB sampleJoin sampleNow otherId))
         (JoinBody.mk (Some "507f1f77bcf86cd799439011") (Some "d@x.com"))
         sampleNow sampleId)
  = fst (post_join_event sampleDB
           (JoinBody.mk (Some "507f1f77bcf86cd799439011") (Some "d@x.com"))
           sampleNow sampleId).
Proof.
  apply (X16_join_blocks_only_its_pair sampleDB sampleJoin
           (JoinBody.mk (Some "507f1f77bcf86cd799439011") (Some "d@x.com"))
           sampleNow sampleNow otherId sampleId).
  - right. discriminate.
  - discriminate.
Defined.

(** ** Start-up *)

Lemma served_initialized (connections : list bool) (app : App) :
  initialized app = true -> served app connections = app.
Proof.
  intros Hinit. induction connections as [|c cs IH]; [reflexivity|].
  unfold served in *. cbn [fold_left]. unfold serve at 2, init.
  rewrite Hinit. exact IH.
Qed.

(** X17: the routes are registered once, by the first request for which
    the connection is made, however many requests follow and whatever
    the later connections would do; until then every request is answered
    with the initialization failure and nothing is registered. *)
Theorem X17_routes_are_registered_once (connections : list bool) :
  initialized (served freshApp connections) = existsb (fun c => c) connections
  /\ routes (served freshApp connections)
     = (if existsb (fun c => c) connections then registered else [])
  /\ (forall more c,
         existsb (fun c => c) connections = true ->
         serve (served freshApp connections) c
         = (true, served freshApp connections)
         /\ served freshApp (connections ++ more)
            = served freshApp connections)
  /\ (existsb (fun c => c) connections = false ->
      served freshApp connections = freshApp
      /\ serve (served freshApp connections) false = (false, freshApp)).
Proof.
  assert (Hfalse : forall cs, existsb (fun c => c) cs = false ->
                              served freshApp cs = freshApp).
  { induction cs as [|c cs IH]; [reflexivity|]. cbn [existsb].
    destruct c; [discriminate|]. cbn [orb]. exact IH. }
  assert (Htrue : forall cs, existsb (fun c => c) cs = true ->
                             served freshApp cs = mkApp true registered).
  { induction cs as [|c cs IH]; [discriminate|]. cbn [existsb].
    destruct c; cbn [orb].
    - intros _. unfold served. cbn [fold_left].
      now apply served_initialized.
    - exact IH. }
  destruct (existsb (fun c => c) connections) eqn:E.
  - rewrite (Htrue _ E). split; [reflexivity|]. split; [reflexivity|].
    split; [|discriminate].
    intros more c _. split; [reflexivity|].
    unfold served. rewrite fold_left_app.
    fold (served freshApp connections). rewrite (Htrue _ E).
    now apply served_initialized.
  - rewrite (Hfalse _ E). split; [reflexivity|]. split; [reflexivity|].
    split; [discriminate|]. intros _. now split.
Qed.

Lemma X17_routes_are_registered_once_witness :
  routes (served freshApp [false; true; false; true]) = registered
  /\ serve (served freshApp [false; true]) false
     = (true, served freshApp [false; true]).
Proof.
  split; [reflexivity|].
  apply (proj1 (proj2 (proj2 (X17_routes_are_registered_once [false; true])))
           [] false eq_refl).
Defined.

(** ** [GET /seed-demo-events] *)

Section Seed.
Context {codec : ObjectIdCodec} {dates : DateParser}
  {calendar : LocalCalendar}.

(** [insertMany] appends a prefix of the documents, all of them when it
    succeeds, each with an identifier unused before it. *)
Lemma insertMany_prefix {A : Type} (idOf : A -> ObjectId) (docs c : list A) :
  exists inserted rest,
    docs = (inserted ++ rest)%list
    /\ fst (insertMany idOf docs c) = (c ++ inserted)%list
    /\ (snd (insertMany idOf docs c) = true <-> rest = [])
    /\ (NoDup (map idOf c) -> NoDup (map idOf (c ++ inserted)))
    /\ (forall d, In d inserted -> ~ In (idOf d) (map idOf c)).
Proof.
  revert c. induction docs as [|doc docs IH]; intros c.
  - exists [], []. cbn. rewrite app_nil_r. repeat split; auto.
  - cbn [insertMany].
    destruct (insertOne idOf doc c) as [c'|] eqn:Hins.
    + pose proof (insertOne_unused _ _ _ _ Hins) as Hfresh.
      apply insertOne_Some in Hins. subst c'.
      destruct (IH (c ++ [doc])%list)
        as (inserted & rest & -> & Hfst & Hsnd & Hnd & Hnew).
      exists (doc :: inserted), rest.
      split; [reflexivity|].
      split; [now rewrite Hfst, <- app_assoc|].
      split; [exact Hsnd|]. split.
      * intros Hc. change (c ++ doc :: inserted)%list
          with (c ++ [doc] ++ inserted)%list. rewrite app_assoc.
        apply Hnd. now apply NoDup_map_app_one.
      * intros d [<-|Hd]; [exact Hfresh|].
        intros Hin. apply (Hnew d Hd). rewrite map_app.
        apply in_or_app. now left.
    + exists [], (doc :: docs). cbn. rewrite app_nil_r.
      repeat split; auto; discriminate.
Qed.

Lemma insertMany_succeeds {A : Type} (idOf : A -> ObjectId)
    (docs c : list A) :
  snd (insertMany idOf docs c) = true
  <-> NoDup (map idOf docs)
      /\ forall d, In d docs -> ~ In (idOf d) (map idOf c).
Proof.
  revert c. induction docs as [|doc docs IH]; intros c.
  - cbn. split; [intros _; split; [constructor | intros d []] | reflexivity].
  - cbn [insertMany map].
    destruct (insertOne idOf doc c) as [c'|] eqn:Hins.
    + pose proof (insertOne_unused _ _ _ _ Hins) as Hfresh.
      apply insertOne_Some in Hins. subst c'. rewrite IH. split.
      * intros [Hnd Hnew]. split.
        -- constructor; [|exact Hnd]. intros Hin.
           apply in_map_iff in Hin. destruct Hin as (d & Hd & Hin).
           apply (Hnew d Hin). rewrite map_app. apply in_or_app.
           right. left. now rewrite Hd.
        -- intros d [<-|Hd]; [exact Hfresh|]. intros Hin.
           apply (Hnew d Hd). rewrite map_app. apply in_or_app. now left.
      * intros [Hnd Hnew]. inversion Hnd as [|? ? Hdoc Hnd']; subst.
        split; [exact Hnd'|]. intros d Hd Hin. rewrite map_app in Hin.
        apply in_app_or in Hin. destruct Hin as [Hin|[Heq|[]]].
        -- apply (Hnew d); [now right | exact Hin].
        -- apply Hdoc. rewrite Heq. now apply in_map.
    + cbn [snd]. split; [discriminate|]. intros [_ Hnew]. exfalso.
      unfold insertOne in Hins.
      destruct (existsb _ c) eqn:E; [|discriminate].
      apply existsb_exists in E. destruct E as (d & Hd & Heq).
      apply ObjectId_eqb_eq in Heq.
      apply (Hnew doc); [now left|]. rewrite <- Heq. now apply in_map.
Qed.

Lemma demoEvents_filled (now : Z) (id1 id2 id3 id4 id5 : ObjectId) :
  Forall filledEvent (demoEvents now id1 id2 id3 id4 id5).
Proof.
  repeat constructor; unfold filledEvent; cbn; repeat split; discriminate.
Qed.

Lemma demoEvents_ids (now : Z) (id1 id2 id3 id4 id5 : ObjectId) :
  map Event._id (demoEvents now id1 id2 id3 id4 id5)
  = [id1; id2; id3; id4; id5].
Proof. reflexivity. Qed.

(** X18: [GET /seed-demo-events] never touches the participations and
    only appends events: a prefix of the five demo events, all five
    exactly when it answers 200, so that a seeding that fails may leave
    some of them inserted. Whatever it answers, it keeps what the other
    handlers keep: one participation per pair, distinct identifiers,
    participations referring to stored events with the creator of their
    event, non-empty text, and every document stored before. *)
Theorem X18_seeding_only_appends_events (db : DB) (now : Z)
    (id1 id2 id3 id4 id5 : ObjectId) :
  let result := get_seed_demo_events db now id1 id2 id3 id4 id5 in
  joinedCollection (snd result) = joinedCollection db
  /\ (exists inserted rest,
         demoEvents now id1 id2 id3 id4 id5 = (inserted ++ rest)%list
         /\ eventsCollection (snd result)
            = (eventsCollection db ++ inserted)%list
         /\ (fst (fst result) = 200 <-> rest = [])
         /\ (fst (fst result) = 500 <-> rest <> []))
  /\ (atMostOnePerPair db -> atMostOnePerPair (snd result))
  /\ (consistent db -> consistent (snd result))
  /\ (filled db -> filled (snd result))
  /\ extends db (snd result).
Proof.
  intros result. subst result. unfold get_seed_demo_events.
  destruct (insertMany_prefix Event._id
              (demoEvents now id1 id2 id3 id4 id5) (eventsCollection db))
    as (inserted & rest & Hdocs & Hfst & Hsnd & Hnd & Hnew).
  destruct (insertMany _ _ _) as [events' ok]. cbn [fst snd] in Hfst, Hsnd.
  subst events'.
  assert (Hdb : snd (if ok
                     then ((200, SeedInserted
                                   "Demo events inserted successfully."
                                   (length
                                      (demoEvents now id1 id2 id3 id4 id5))),
                           mkDB (eventsCollection db ++ inserted)%list
                             (joinedCollection db))
                     else ((500, SeedFailed "Failed to seed demo events"),
                           mkDB (eventsCollection db ++ inserted)%list
                             (joinedCollection db)))
                = mkDB (eventsCollection db ++ inserted)%list
                    (joinedCollection db))
    by (destruct ok; reflexivity).
  rewrite Hdb. cbn [eventsCollection joinedCollection].
  split; [reflexivity|]. split.
  { exists inserted, rest. split; [exact Hdocs|]. split; [reflexivity|].
    destruct ok; cbn [fst]; (split; split).
    - intros _. now apply Hsnd.
    - intros _. reflexivity.
    - intros H. discriminate H.
    - intros Hrest. exfalso. apply Hrest. now apply Hsnd.
    - intros H. discriminate H.
    - intros Hrest. apply Hsnd in Hrest. discriminate Hrest.
    - intros _ Hrest. apply Hsnd in Hrest. discriminate Hrest.
    - intros _. reflexivity. }
  split; [apply atMostOnePerPair_joined; reflexivity|]. split.
  { intros ([He Hj] & Hr & Hs). split; [split; [now apply Hnd | exact Hj]|].
    split.
    - intros j Hin. destruct (Hr j Hin) as (x & Hx & Hid).
      exists x. split; [apply in_or_app; now left | exact Hid].
    - intros j x Hj' Hx Heq. cbn [eventsCollection joinedCollection] in *.
      apply in_app_or in Hx. destruct Hx as [Hx|Hx]; [now apply Hs|].
      exfalso. apply (Hnew x Hx). destruct (Hr j Hj') as (y & Hy & Hyid).
      rewrite Heq, <- Hyid. now apply in_map. }
  split.
  { intros [He Hj]. split; [|exact Hj]. cbn [eventsCollection].
    apply Forall_app. split; [exact He|].
    pose proof (demoEvents_filled now id1 id2 id3 id4 id5) as Hdemo.
    rewrite Hdocs in Hdemo. apply Forall_app in Hdemo. apply Hdemo. }
  split; cbn [eventsCollection joinedCollection].
  - exists []. now rewrite app_nil_r.
  - exists (eventsCollection db), inserted.
    split; [reflexivity | apply sameIdentity_all].
Qed.

(** X19: [GET /seed-demo-events] answers 200 with [insertedCount] 5
    exactly when the five generated identifiers are pairwise distinct and
    unused; the five demo events, created at [now], are then stored
    after the events already there, so that seeding again stores five
    more. *)
Theorem X19_seeding_succeeds_with_unused_ids (db : DB) (now : Z)
    (id1 id2 id3 id4 id5 : ObjectId) :
  (fst (fst (get_seed_demo_events db now id1 id2 id3 id4 id5)) = 200
   <-> NoDup [id1; id2; id3; id4; id5]
       /\ forall o, In o [id1; id2; id3; id4; id5] ->
                    ~ In o (map Event._id (eventsCollection db)))
  /\ (fst (fst (get_seed_demo_events db now id1 id2 id3 id4 id5)) = 200 ->
      get_seed_demo_events db now id1 id2 id3 id4 id5
      = ((200, SeedInserted "Demo events inserted successfully." 5),
         mkDB (eventsCollection db ++ demoEvents now id1 id2 id3 id4 id5)%list
           (joinedCollection db))
      /\ Forall (fun e => Event.createdAt e = now)
           (demoEvents now id1 id2 id3 id4 id5)).
Proof.
  pose proof (insertMany_succeeds Event._id
                (demoEvents now id1 id2 id3 id4 id5) (eventsCollection db))
    as Hiff.
  rewrite demoEvents_ids in Hiff.
  assert (Hids : (forall d, In d (demoEvents now id1 id2 id3 id4 id5) ->
                            ~ In (Event._id d)
                                (map Event._id (eventsCollection db)))
                 <-> (forall o, In o [id1; id2; id3; id4; id5] ->
                                ~ In o (map Event._id (eventsCollection db)))).
  { rewrite <- (demoEvents_ids now). split.
    - intros H o Ho. apply in_map_iff in Ho. destruct Ho as (d & <- & Hd).
      now apply H.
    - intros H d Hd. apply H. now apply in_map. }
  rewrite Hids in Hiff.
  destruct (insertMany_prefix Event._id
              (demoEvents now id1 id2 id3 id4 id5) (eventsCollection db))
    as (inserted & rest & Hdocs & Hfst & Hsnd & _).
  unfold get_seed_demo_events.
  destruct (insertMany _ _ _) as [events' ok]. cbn [fst snd] in *.
  destruct ok; cbn [fst].
  - split.
    + split; [intros _; now apply Hiff | reflexivity].
    + intros _. assert (Hrest : rest = []) by now apply Hsnd.
      subst rest. rewrite app_nil_r in Hdocs. subst inserted events'.
      split; [reflexivity|]. repeat constructor.
  - split; [|discriminate]. split; [discriminate|].
    intros H. apply Hiff in H. discriminate.
Qed.
End Seed.

Lemma X19_seeding_succeeds_with_unused_ids_witness :
  fst (fst (get_seed_demo_events sampleDB sampleNow
              (demoId Byte.x01) (demoId Byte.x02) (demoId Byte.x03)
              (demoId Byte.x04) (demoId Byte.x05))) = 200
  /\ length
       (eventsCollection
          (snd (get_seed_demo_events sampleDB sampleNow
                  (demoId Byte.x01) (demoId Byte.x02) (demoId Byte.x03)
                  (demoId Byte.x04) (demoId Byte.x05)))) = 6%nat.
Proof.
  assert (Hok : fst (fst (get_seed_demo_events sampleDB sampleNow
                            (demoId Byte.x01) (demoId Byte.x02)
                            (demoId Byte.x03) (demoId Byte.x04)
                            (demoId Byte.x05))) = 200) by reflexivity.
  split; [exact Hok|].
  destruct (proj2 (X19_seeding_succeeds_with_unused_ids sampleDB sampleNow
                     (demoId Byte.x01) (demoId Byte.x02) (demoId Byte.x03)
                     (demoId Byte.x04) (demoId Byte.x05)) Hok) as [-> _].
  reflexivity.
Defined.

(** A seeding whose third identifier is in use answers 500 and leaves
    the first two demo events inserted. *)
Example seeding_fails_half_way :
  let result :=
    get_seed_demo_events sampleDB sampleNow (demoId Byte.x01)
      (demoId Byte.x02) sampleId (demoId Byte.x04) (demoId Byte.x05) in
  fst (fst result) = 500
  /\ map Event.title (eventsCollection (snd result))
     = ["Cleanup"; "City Park Cleanup Drive"; "Tree Plantation Day"].
Proof. vm_compute. split; reflexivity. Qed.

Lemma X18_seeding_only_appends_events_witness :
  atMostOnePerPair
    (snd (get_seed_demo_events joinedDB sampleNow
            (demoId Byte.x01) (demoId Byte.x02) sampleId
            (demoId Byte.x04) (demoId Byte.x05)))
  /\ joinedCollection
       (snd (get_seed_demo_events joinedDB sampleNow
               (demoId Byte.x01) (demoId Byte.x02) sampleId
               (demoId Byte.x04) (demoId Byte.x05)))
     = [sampleJoined].
Proof.
  assert (Hone : atMostOnePerPair joinedDB).
  { intros o u. unfold participations. cbn [joinedCollection joinedDB filter].
    destruct (byPair o u sampleJoined); simpl; lia. }
  pose proof (X18_seeding_only_appends_events joinedDB sampleNow
                (demoId Byte.x01) (demoId Byte.x02) sampleId
                (demoId Byte.x04) (demoId Byte.x05)) as H.
  cbv zeta in H. destruct H as (Hj & _ & Hkeep & _).
  split; [exact (Hkeep Hone) | exact Hj].
Defined.

(** ** Status and outcome *)

Section Outcome.
Context {codec : ObjectIdCodec} {dates : DateParser}.

Lemma updateOne_length {A : Type} (q : A -> bool) (set : A -> A)
    (c : list A) :
  length (updateOne q set c) = length c.
Proof.
  induction c as [|d c IH]; simpl; [reflexivity|].
  destruct (q d); simpl; congruence.
Qed.

(** X20: the status of an answer tells its outcome. A request is answered
    either with a success body and status 200 or 201, or with a failure
    body, a status among 400, 403, 404 and 500 and an error kind; and
    status 201 is answered exactly when a document was inserted, the
    database being then one document larger. *)
Theorem X20_status_tells_the_outcome (db : DB) (c : Call) :
  let r := fst (handle db c) in
  let db' := snd (handle db c) in
  ((succeeded r = true /\ errorKind r = None
    /\ (status r = 200 \/ status r = 201))
   \/ (succeeded r = false /\ errorKind r <> None
       /\ (status r = 400 \/ status r = 403 \/ status r = 404
           \/ status r = 500)))
  /\ (status r = 201
      <-> (length (eventsCollection db') + length (joinedCollection db')
           = S (length (eventsCollection db) + length (joinedCollection db)))
          %nat).
Proof.
  intros r db'. subst r db'.
  destruct c as [b now now' newId| | |email|id|id b now|b now newId|email];
    cbn [handle fst snd].
  - destruct (post_events_cases db b now now' newId)
      as [[Hfail Hdb]|(e & -> & _)].
    + rewrite Hdb. unfold post_events in *.
      destruct (_ || _); [cbn; split; [right; repeat split; auto; discriminate
                                       | split; [discriminate | lia]]|].
      destruct (Date_parse _) as [d|];
        [|cbn; split; [right; repeat split; auto; discriminate
                       | split; [discriminate | lia]]].
      destruct (d <=? now);
        [cbn; split; [right; repeat split; auto; discriminate
                      | split; [discriminate | lia]]|].
      destruct (insertOne _ _ _); [discriminate Hfail|].
      cbn. split; [right; repeat split; auto 6; discriminate
                   | split; [discriminate | lia]].
    + cbn [fst snd status eventsCollection joinedCollection].
      rewrite length_app. cbn [length].
      split; [left; repeat split; auto | split; [lia | reflexivity]].
  - unfold get_events. cbn.
    split; [left; repeat split; auto | split; [discriminate | lia]].
  - unfold get_events_upcoming. cbn.
    split; [left; repeat split; auto | split; [discriminate | lia]].
  - unfold get_events_user. destruct (negb (truthy email)); cbn.
    + split; [right; repeat split; auto; discriminate
              | split; [discriminate | lia]].
    + split; [left; repeat split; auto | split; [discriminate | lia]].
  - unfold get_events_id. destruct (negb (isValid id)); cbn.
    + split; [right; repeat split; auto; discriminate
              | split; [discriminate | lia]].
    + destruct (findOne _ _); cbn.
      * split; [left; repeat split; auto | split; [discriminate | lia]].
      * split; [right; repeat split; auto 6; discriminate
                | split; [discriminate | lia]].
  - unfold put_events_id.
    destruct (negb (isValid id));
      [cbn; split; [right; repeat split; auto; discriminate
                    | split; [discriminate | lia]]|].
    destruct (negb (truthy _));
      [cbn; split; [right; repeat split; auto; discriminate
                    | split; [discriminate | lia]]|].
    destruct (findOne _ _) as [existing|];
      [|cbn; split; [right; repeat split; auto 6; discriminate
                     | split; [discriminate | lia]]].
    destruct (negb (_ =? _)%string);
      [cbn; split; [right; repeat split; auto; discriminate
                    | split; [discriminate | lia]]|].
    destruct (_ || _);
      [cbn; split; [right; repeat split; auto; discriminate
                    | split; [discriminate | lia]]|].
    destruct (Date_parse _) as [d|];
      [|cbn; split; [right; repeat split; auto; discriminate
                     | split; [discriminate | lia]]].
    destruct (d <=? now);
      [cbn; split; [right; repeat split; auto; discriminate
                    | split; [discriminate | lia]]|].
    cbn [fst snd status json succeeded errorKind body eventsCollection
           joinedCollection].
    rewrite updateOne_length.
    split; [left; repeat split; auto | split; [discriminate | lia]].
  - destruct (post_join_event_cases db b now newId)
      as [[Hfail Hdb]|(id & u & e & -> & _)].
    + rewrite Hdb. unfold post_join_event in *.
      destruct (_ || _); [cbn; split; [right; repeat split; auto; discriminate
                                       | split; [discriminate | lia]]|].
      destruct (negb (isValid _));
        [cbn; split; [right; repeat split; auto; discriminate
                      | split; [discriminate | lia]]|].
      destruct (findOne (byId _) _);
        [|cbn; split; [right; repeat split; auto 6; discriminate
                       | split; [discriminate | lia]]].
      destruct (findOne (byPair _ _) _);
        [cbn; split; [right; repeat split; auto; discriminate
                      | split; [discriminate | lia]]|].
      destruct (insertOne _ _ _); [discriminate Hfail|].
      cbn. split; [right; repeat split; auto 6; discriminate
                   | split; [discriminate | lia]].
    + cbn [fst snd status eventsCollection joinedCollection].
      rewrite length_app. cbn [length].
      split; [left; repeat split; auto | split; [lia | reflexivity]].
  - unfold get_joined. destruct (negb (truthy email)); cbn.
    + split; [right; repeat split; auto; discriminate
              | split; [discriminate | lia]].
    + split; [left; repeat split; auto | split; [discriminate | lia]].
Qed.
End Outcome.
